(** * PyKOALA corrections: a shallow embedding and its verified properties

  The development embeds the array kernels and the correction classes of
  the repository:

  - [koala/ancillary.py]: [flux_conserving_interpolation];
  - [koala/corrections/flux_calibration.py]: the class [FluxCalibration];
  - [pykoala/corrections/wavelength.py]: [WavelengthOffset],
    [WavelengthCorrection] and [SolarCrossCorrOffset];
  - [pykoala/corrections/atmospheric_corrections.py]:
    [AtmosphericExtCorrection].

  Python exceptions are values of an error monad, mutable objects are
  threaded explicitly, and float64 arrays are lists of reals extended with
  NaN.  Arithmetic is exact: rounding, overflow and the infinities of
  IEEE 754 are not part of the model. *)

From Stdlib Require Import Reals Lra Lia Ascii String.
From stdpp Require Import base option list sorting gmap strings.

(** ** Python: exceptions and results *)

Module Py.

(** The exception classes that the embedded code raises or lets through. *)
Inductive exception : Set :=
| IndexError
| ValueError
| TypeError
| NameError
| AttributeError
| OSError
| FileNotFoundError
| RuntimeError
| UnboundLocalError
| FitError
| CalibrationError.

(** The outcome of running a piece of Python: a value, or a raised
    exception. *)
Inductive result (A : Type) : Type :=
| Ok (a : A)
| Raise (e : exception).
Arguments Ok {A} a.
Arguments Raise {A} e.

#[global] Instance result_ret : MRet result := λ A, @Ok A.
#[global] Instance result_bind : MBind result := λ A B f m,
  match m with
  | Ok a => f a
  | Raise e => Raise e
  end.

(** [l[i]] for a non-negative index: [IndexError] out of range. *)
Definition getitem {A} (l : list A) (i : nat) : result A :=
  match l !! i with
  | Some x => Ok x
  | None => Raise IndexError
  end.

(** [l[-1]]. *)
Definition getitem_last {A} (l : list A) : result A :=
  match last l with
  | Some x => Ok x
  | None => Raise IndexError
  end.

(** [for x in l: body], threading an accumulator and stopping at the
    first exception. *)
Fixpoint for_each {A S} (body : S → A → result S) (l : list A) (s : S)
    : result S :=
  match l with
  | [] => Ok s
  | x :: l' => s' ← body s x; for_each body l' s'
  end.

(** *** Strings (ASCII text) *)

Definition lower_char (c : ascii) : ascii :=
  let n := nat_of_ascii c in
  if (65 <=? n) && (n <=? 90) then ascii_of_nat (n + 32) else c.

(** [s.lower()] *)
Fixpoint lower (s : string) : string :=
  match s with
  | EmptyString => EmptyString
  | String c s' => String (lower_char c) (lower s')
  end.

(** [s[0]] *)
Definition str_getitem0 (s : string) : result ascii :=
  match s with
  | EmptyString => Raise IndexError
  | String c _ => Ok c
  end.

(** [sub in s] *)
Fixpoint contains (sub s : string) : bool :=
  String.prefix sub s ||
  match s with
  | EmptyString => false
  | String _ s' => contains sub s'
  end.

(** [s.split(c)[0]]: the text before the first [c]. *)
Fixpoint split0 (c : ascii) (s : string) : string :=
  match s with
  | EmptyString => EmptyString
  | String d s' => if Ascii.eqb d c then EmptyString else String d (split0 c s')
  end.

(** Insertion of a file name into a sorted list, for [np.sort] on an
    array of strings (code-point order). *)
Fixpoint insert_str (s : string) (l : list string) : list string :=
  match l with
  | [] => [s]
  | t :: l' => if String.leb s t then s :: l else t :: insert_str s l'
  end.

Definition sort_str (l : list string) : list string :=
  foldr insert_str [] l.

(** *** Integer indices and slices *)


(** [l[k:]]: without the first [k] items, or the last [-k] items when [k]
    is negative. *)
Definition slice_from {A} (k : Z) (l : list A) : list A :=
  if decide (0 ≤ k)%Z then drop (Z.to_nat k) l
  else drop (length l - Z.to_nat (- k)) l.

(** [l[:k]]: the first [k] items, or all but the last [-k] items when [k]
    is negative. *)
Definition slice_to {A} (k : Z) (l : list A) : list A :=
  if decide (0 ≤ k)%Z then take (Z.to_nat k) l
  else take (length l - Z.to_nat (- k)) l.

End Py.
Export Py.

(** ** NumPy: float64 values and one-dimensional arrays *)

Module NumPy.
Local Open Scope R_scope.

(** A float64 value: a real number, or NaN.  The infinities are not
    represented; a division by zero yields [NaN] (NumPy yields NaN for 0/0
    and an infinity otherwise). *)
Inductive float : Type :=
| Fin (x : R)
| NaN.

(** A one-dimensional [np.ndarray] of dtype float64. *)
Abbreviation ndarray := (list float).

#[global] Instance R_eq_dec : EqDecision R := Req_dec_T.
#[global] Instance Rlt_decision (x y : R) : Decision (x < y) := Rlt_dec x y.
#[global] Instance Rle_decision (x y : R) : Decision (x <= y) := Rle_dec x y.

Definition lift1 (f : R → R) (a : float) : float :=
  match a with
  | Fin x => Fin (f x)
  | NaN => NaN
  end.

Definition lift2 (f : R → R → R) (a b : float) : float :=
  match a, b with
  | Fin x, Fin y => Fin (f x y)
  | _, _ => NaN
  end.

Definition fadd : float → float → float := lift2 Rplus.
Definition fsub : float → float → float := lift2 Rminus.
Definition fmul : float → float → float := lift2 Rmult.
Definition fneg : float → float := lift1 Ropp.
Definition fexp : float → float := lift1 exp.
(** [a / 2] *)
Definition fhalf : float → float := lift1 (λ x, x / 2).
(** [a ** 2] *)
Definition fsqr : float → float := lift1 (λ x, x * x).

Definition fdiv (a b : float) : float :=
  match a, b with
  | Fin x, Fin y => if decide (y = 0) then NaN else Fin (x / y)
  | _, _ => NaN
  end.

(** [np.isfinite] *)
Definition isfinite (a : float) : bool :=
  match a with
  | Fin _ => true
  | NaN => false
  end.

(** The value that the NaN-ignoring reductions read: NaN counts as zero. *)
Definition nan_to_zero (a : float) : R :=
  match a with
  | Fin x => x
  | NaN => 0
  end.

(** The array as a list of reals, when it holds no NaN. *)
Fixpoint finite (a : ndarray) : option (list R) :=
  match a with
  | [] => Some []
  | Fin x :: a' => cons x <$> finite a'
  | NaN :: _ => None
  end.

(** [np.sum]: a NaN entry makes the sum NaN. *)
Definition sum (a : ndarray) : float := foldr fadd (Fin 0) a.

(** [np.nansum]: NaN entries are skipped. *)
Definition nansum (a : ndarray) : float :=
  Fin (foldr (λ v s, nan_to_zero v + s) 0 a).

(** [np.cumsum], from a running total. *)
Fixpoint cumsum_from (acc : float) (a : ndarray) : ndarray :=
  match a with
  | [] => []
  | v :: a' => let acc' := fadd acc v in acc' :: cumsum_from acc' a'
  end.

Definition cumsum (a : ndarray) : ndarray := cumsum_from (Fin 0) a.

(** [np.nancumsum]: NaN entries are replaced by zero first. *)
Definition nancumsum (a : ndarray) : ndarray :=
  cumsum (map (λ v, Fin (nan_to_zero v)) a).

(** [np.diff a], which is also [a[1:] - a[:-1]]. *)
Definition diff (a : ndarray) : ndarray := zip_with fsub (tail a) a.

(** [np.arange(n)] *)
Definition arange (n : nat) : ndarray := map (λ k, Fin (INR k)) (seq 0 n).

(** An elementwise binary operation on two one-dimensional arrays, with
    NumPy's broadcasting: equal lengths, or one operand of length one. *)
Definition broadcast2 (f : float → float → float) (a b : ndarray)
    : result ndarray :=
  if decide (length a = length b) then Ok (zip_with f a b)
  else match a, b with
       | [x], _ => Ok (map (f x) b)
       | _, [y] => Ok (map (λ x, f x y) a)
       | _, _ => Raise ValueError
       end.

(** [np.interp] at one point, for sample points [xp] without NaN.  The
    segment is found by a left-to-right scan; NumPy's binary search finds
    the same segment when [xp] is increasing, and documents its result as
    meaningless otherwise. *)
Fixpoint interp_scan (x : R) (xp : list R) (fp : ndarray) : float :=
  match xp, fp with
  | x0 :: ((x1 :: _) as xp'), y0 :: ((y1 :: _) as fp') =>
      if decide (x < x1)
      then if decide (x = x0) then y0
           else fadd (fmul (fdiv (fsub y1 y0) (Fin (x1 - x0))) (Fin (x - x0))) y0
      else interp_scan x xp' fp'
  | _, y :: _ => y
  | _, [] => NaN
  end.

Definition interp1 (x : float) (xp : list R) (fp : ndarray) : float :=
  match x, xp, fp with
  | Fin x, x0 :: _, y0 :: _ =>
      if decide (x < x0) then y0 else interp_scan x xp fp
  | _, _, _ => NaN
  end.

(** [np.interp(x, xp, fp)] with the default [left] and [right].  Sample
    points holding a NaN are not increasing: the model answers NaN. *)
Definition interp (x xp fp : ndarray) : result ndarray :=
  if decide (length xp = 0%nat) then Raise ValueError
  else if decide (length xp = length fp) then
    match finite xp with
    | Some xs => Ok (map (λ v, interp1 v xs fp) x)
    | None => Ok (map (λ _, NaN) x)
    end
  else Raise ValueError.

#[global] Instance float_inhabited : Inhabited float := populate NaN.

(** The smaller of two values, as [np.minimum]: NaN if either is. *)
Definition fmin (a b : float) : float := lift2 Rmin a b.

(** [a.min()] of a flattened array: [ValueError] on an empty array, NaN if
    an entry is NaN. *)
Definition amin (a : ndarray) : result float :=
  match a with
  | [] => Raise ValueError
  | v :: a' => Ok (foldl fmin v a')
  end.

(** The larger of two values, as [np.maximum]: NaN if either is. *)
Definition fmax (a b : float) : float := lift2 Rmax a b.

(** [a.max()] *)
Definition amax (a : ndarray) : result float :=
  match a with
  | [] => Raise ValueError
  | v :: a' => Ok (foldl fmax v a')
  end.

(** The entries that are not NaN. *)
Definition non_nan (a : ndarray) : list R :=
  omap (λ v, match v with Fin x => Some x | NaN => None end) a.

(** [np.nanmean]: the mean of the entries that are not NaN, NaN when there
    is none. *)
Definition nanmean (a : ndarray) : float :=
  match non_nan a with
  | [] => NaN
  | vals => Fin (foldr Rplus 0 vals / INR (length vals))
  end.

(** [np.nanmean(a, axis=0)] for a two-dimensional [a] with [ncols]
    columns, kept as its list of rows. *)
Definition nanmean_axis0 (a : list ndarray) (ncols : nat) : ndarray :=
  map (λ j, nanmean (map (λ row : ndarray, row !!! j) a)) (seq 0 ncols).

(** [a < b] on float64 values: false when either is NaN. *)
Definition flt (a b : float) : bool :=
  match a, b with
  | Fin x, Fin y => bool_decide (x < y)
  | _, _ => false
  end.

(** The order of a sort: numbers by value, NaN last. *)
Definition sorts_before (a b : float) : bool :=
  match a, b with
  | Fin x, Fin y => bool_decide (x <= y)
  | _, NaN => true
  | NaN, Fin _ => false
  end.

Fixpoint insert_by_key (p : float * nat) (l : list (float * nat))
    : list (float * nat) :=
  match l with
  | [] => [p]
  | q :: l' =>
      if sorts_before p.1 q.1 then p :: l else q :: insert_by_key p l'
  end.

(** [np.argsort]: the indices that sort the array (entries that compare
    equal keep their order). *)
Definition argsort (a : ndarray) : list nat :=
  (foldr insert_by_key [] (imap (λ i v, (v, i)) a)).*2.

(** Whether [v] replaces the running maximum [best] in [np.argmax]: a NaN
    is never replaced, and replaces any number. *)
Definition replaces_max (v best : float) : bool :=
  match best, v with
  | NaN, _ => false
  | Fin _, NaN => true
  | Fin b, Fin x => bool_decide (b < x)
  end.

Fixpoint argmax_from (best_i : nat) (best : float) (i : nat) (a : ndarray)
    : nat :=
  match a with
  | [] => best_i
  | v :: a' =>
      if replaces_max v best then argmax_from i v (S i) a'
      else argmax_from best_i best (S i) a'
  end.

(** [np.argmax]: the first index of the maximum. *)
Definition argmax (a : ndarray) : result nat :=
  match a with
  | [] => Raise ValueError
  | v :: a' => Ok (argmax_from 0 v 1 a')
  end.

(** Two operands paired along one axis, an axis of length one being
    broadcast. *)
Definition broadcast_axis {A B} (a : list A) (b : list B)
    : result (list (A * B)) :=
  if decide (length a = length b) then Ok (zip a b)
  else match a, b with
       | [x], _ => Ok (map (λ y, (x, y)) b)
       | _, [y] => Ok (map (λ x, (x, y)) a)
       | _, _ => Raise ValueError
       end.

(** A value assigned to a slot whose axis has length [n]: the axis of the
    value has that length, or length one and is broadcast. *)
Definition fit_axis {A} (n : nat) (a : list A) : result (list A) :=
  if decide (length a = n) then Ok a
  else match a with
       | [x] => Ok (replicate n x)
       | _ => Raise ValueError
       end.













End NumPy.
Export NumPy.

(** ** [koala/ancillary.py] *)

Module Ancillary.

(** The bin edges of a sampling grid, the expression
    [np.hstack((w[0] - dw[0] / 2, w[:-1] + dw / 2, w[-1] + dw[-1] / 2))]
    with [dw = w[1:] - w[:-1]] that [flux_conserving_interpolation] writes
    for both grids and [get_response_curve] for its own. *)
Definition bin_edges (w : ndarray) : result ndarray :=
  let dwave := diff w in
  w0 ← getitem w 0;
  d0 ← getitem dwave 0;
  wl ← getitem_last w;
  dl ← getitem_last dwave;
  Ok ([fsub w0 (fhalf d0)]
        ++ zip_with (λ a d, fadd a (fhalf d)) (removelast w) dwave
        ++ [fadd wl (fhalf dl)]).

(** [flux_conserving_interpolation(new_wavelength, wavelength, spectra)],
    called without [interp_args]. *)
Definition flux_conserving_interpolation
    (new_wavelength wavelength spectra : ndarray) : result ndarray :=
  wavelength_edges ← bin_edges wavelength;
  new_wavelength_edges ← bin_edges new_wavelength;
  flux ← broadcast2 fmul (diff wavelength_edges) spectra;
  let cum_spectra := nancumsum flux in
  let cum_spectra := Fin 0 :: cum_spectra in
  new_cum_spectra ← interp new_wavelength_edges wavelength_edges cum_spectra;
  broadcast2 fdiv (diff new_cum_spectra) (diff new_wavelength_edges).

(** [centre_of_mass(w, x, y)] *)
Definition centre_of_mass (w x y : ndarray) : result (float * float) :=
  let norm := nansum w in
  wx ← broadcast2 fmul w x;
  wy ← broadcast2 fmul w y;
  Ok (fdiv (nansum wx) norm, fdiv (nansum wy) norm).

(** [growth_curve_1d(f, x, y)] *)
Definition growth_curve_1d (f x y : ndarray) : result (ndarray * ndarray) :=
  r2 ← broadcast2 fadd (map fsqr x) (map fsqr y);
  let idx_sorted := argsort r2 in
  f_sorted ← mapM (M := result) (getitem f) idx_sorted;
  let growth_c := cumsum f_sorted in
  r2_sorted ← mapM (M := result) (getitem r2) idx_sorted;
  Ok (r2_sorted, growth_c).




(** [running_mean(x, n_window)] *)
Definition running_mean (x : ndarray) (n_window : Z) : result ndarray :=
  let cumsum := cumsum (Fin 0 :: x) in
  d ← broadcast2 fsub (slice_from n_window cumsum)
        (slice_to (- n_window) cumsum);
  Ok (map (λ v, fdiv v (Fin (IZR n_window))) d).



End Ancillary.

(** ** Exact arithmetic on NaN-free arrays

    The real-valued counterparts of the array expressions above; the
    lemmas of the second part show that the float-level definitions compute
    them on arrays without NaN. *)

Module Exact.
Local Open Scope R_scope.

Definition diffR (l : list R) : list R := zip_with Rminus (tail l) l.

Definition sumR (l : list R) : R := foldr Rplus 0 l.

Fixpoint cumsumR (acc : R) (l : list R) : list R :=
  match l with
  | [] => []
  | v :: l' => (acc + v) :: cumsumR (acc + v) l'
  end.

(** The interior and the last bin edge of a grid whose previous sample is
    [x] and whose remaining samples are [l]. *)
Fixpoint mids_last (x : R) (l : list R) : list R :=
  match l with
  | [] => []
  | [y] => [x + (y - x) / 2; y + (y - x) / 2]
  | y :: l' => (x + (y - x) / 2) :: mids_last y l'
  end.

Definition edgesR (w : list R) : list R :=
  match w with
  | a :: ((b :: _) as l) => (a - (b - a) / 2) :: mids_last a l
  | _ => []
  end.

(** A strictly increasing sequence of reals. *)
Definition increasing (l : list R) : Prop := StronglySorted Rlt l.

(** Linear interpolation through real samples. *)
Fixpoint interp_scanR (x : R) (xp fp : list R) : R :=
  match xp, fp with
  | x0 :: ((x1 :: _) as xp'), y0 :: ((y1 :: _) as fp') =>
      if decide (x < x1)
      then if decide (x = x0) then y0
           else (y1 - y0) / (x1 - x0) * (x - x0) + y0
      else interp_scanR x xp' fp'
  | _, y :: _ => y
  | _, [] => 0
  end.

Definition interp1R (x : R) (xp fp : list R) : R :=
  match xp, fp with
  | x0 :: _, y0 :: _ => if decide (x < x0) then y0 else interp_scanR x xp fp
  | _, _ => 0
  end.

(** A NaN-free three-dimensional array. *)
Abbreviation Fin3 := (map (map (map Fin))).

(** The least entry of a non-empty list. *)
Definition minR (l : list R) : R :=
  match l with
  | [] => 0
  | v :: l' => foldl Rmin v l'
  end.


(** The entries of fibre [f] over the grid, in row-major order. *)
Definition colR (a : list (list (list R))) (f : nat) : list R :=
  concat (map (map (λ cell, nth f cell 0)) a).

(** The likelihood of a NaN-free [all_chi2], before and after its
    normalisation for each of [n_fibres] fibres. *)
Definition weightsR (c : list (list (list R))) : list (list (list R)) :=
  map (map (map (λ x, exp (- (x - minR (concat (concat c))) / 2)))) c.

Definition normR (n_fibres : nat) (c : list (list (list R))) : list R :=
  map (λ f, sumR (colR (weightsR c) f)) (seq 0 n_fibres).

Definition likelihoodR (n_fibres : nat) (c : list (list (list R)))
    : list (list (list R)) :=
  map (map (λ cell, zip_with Rdiv cell (normR n_fibres c))) (weightsR c).

(** A three-dimensional array of shape [(_, m, n_fibres)]. *)
Definition has_grid_shape {A} (m n_fibres : nat) (a : list (list (list A)))
    : Prop :=
  Forall (λ block, length block = m
                   ∧ Forall (λ cell, length cell = n_fibres) block) a.

(** The entry [a[i, j, f]]. *)
Definition at3 {A} (a : list (list (list A))) (i j f : nat) : option A :=
  block ← a !! i; cell ← block !! j; cell !! f.

(** The index that [np.argmax] returns, 0 on an empty array. *)
Definition argmax_index (a : ndarray) : nat :=
  match a with
  | [] => 0%nat
  | v :: a' => argmax_from 0 v 1 a'
  end.

(** The finite entries of an array with their positions, counted from
    [k]: the samples between which [interpolate_nan] interpolates. *)
Fixpoint finite_from (k : nat) (s : ndarray) : list (nat * R) :=
  match s with
  | [] => []
  | Fin v :: s' => (k, v) :: finite_from (S k) s'
  | NaN :: s' => finite_from (S k) s'
  end.

(** The cumulative flux at the old bin edges, in exact arithmetic. *)
Definition cum_fluxR (w s : list R) : list R :=
  0 :: cumsumR 0 (zip_with Rmult (diffR (edgesR w)) s).

(** The cumulative flux at the new bin edges. *)
Definition new_cum_fluxR (nw w s : list R) : list R :=
  map (λ x, interp1R x (edgesR w) (cum_fluxR w s)) (edgesR nw).

End Exact.

(** ** SciPy: [scipy.interpolate.interp1d] *)

Module SciPy.
Local Open Scope R_scope.

(** [interp1d] sorts its samples by abscissa with a stable sort. *)
Fixpoint insert_sample (p : R * float) (l : list (R * float))
    : list (R * float) :=
  match l with
  | [] => [p]
  | q :: l' =>
      if decide (p.1 <= q.1) then p :: l else q :: insert_sample p l'
  end.

Definition sort_samples (l : list (R * float)) : list (R * float) :=
  foldr insert_sample [] l.

(** [interp1d(x, y, fill_value=fill_value, bounds_error=False)], a linear
    interpolator: the returned function is the call of the interpolator at
    one point.  Outside the range of [x] it answers [fill_value]; inside, it
    is [np.interp] on the sorted samples.  Abscissas holding a NaN are not
    modelled: the interpolator then answers NaN. *)
Definition interp1d (x y : ndarray) (fill_value : float)
    : result (float → float) :=
  if decide (length x = length y) then
    if decide (length x = 0%nat) then Raise ValueError
    else
      match finite x with
      | Some xs =>
          let samples := sort_samples (zip xs y) in
          let xs := samples.*1 in
          let ys := samples.*2 in
          Ok (λ x_new,
              match x_new with
              | Fin v =>
                  if decide (v < hd 0 xs) then fill_value
                  else if decide (List.last xs 0 < v) then fill_value
                  else interp1 x_new xs ys
              | NaN => NaN
              end)
      | None => Ok (λ _, NaN)
      end
  else Raise ValueError.

End SciPy.
Export SciPy.

(** ** [koala/corrections/flux_calibration.py] *)

Module FluxCalibration.
Local Open Scope R_scope.

(** [a[mask]] for a boolean mask. *)
Definition boolean_index {A} (a : list A) (mask : list bool)
    : result (list A) :=
  if decide (length a = length mask)
  then Ok ((filter (λ p, p.2 = true) (zip a mask)).*1)
  else Raise IndexError.

(** [np.mean] *)
Definition mean (a : ndarray) : float :=
  fdiv (sum a) (Fin (INR (length a))).

Section get_response_curve.

(** Routines that the method calls and that are not part of the
    repository's sources: [koala.ancillary.mask_lines],
    [scipy.ndimage.gaussian_filter1d], and [np.polyfit] followed by
    [np.poly1d(...).deriv(m=1)]. *)
Variable mask_lines : ndarray → list bool.
Variable gaussian_filter1d : ndarray → float → ndarray.
Variable polyfit_deriv : ndarray → ndarray → nat → result (float → float).

(** [FluxCalibration.get_response_curve] with [plot=False]; the result is
    the interpolator [response] (the figure is [None]). *)
Definition get_response_curve (wave obs_spectra ref_spectra : ndarray)
    (pol_deg : option nat) (gauss_smooth_sigma : option float)
    (mask_absorption : bool) : result (float → float) :=
  let dwave := diff wave in
  wave_edges ← Ancillary.bin_edges wave;
  '(obs_spectra, ref_spectra) ←
    (if mask_absorption then
       let lines_mask := mask_lines wave in
       wave_m ← boolean_index wave lines_mask;
       obs_m ← boolean_index obs_spectra lines_mask;
       obs' ← interp wave wave_m obs_m;
       ref_m ← boolean_index ref_spectra lines_mask;
       ref' ← interp wave wave_m ref_m;
       Ok (obs', ref')
     else Ok (obs_spectra, ref_spectra));
  ratio ← broadcast2 fdiv obs_spectra ref_spectra;
  weighted ← broadcast2 fmul ratio (diff wave_edges);
  let cum_response := cumsum weighted in
  let cum_response :=
    match gauss_smooth_sigma with
    | Some sigma => gaussian_filter1d cum_response (fdiv sigma (mean dwave))
    | None => cum_response
    end in
  match pol_deg with
  | Some deg => polyfit_deriv wave cum_response deg
  | None =>
      c0 ← getitem cum_response 0;
      c1 ← getitem cum_response 1;
      let cum_response := fsub c0 (fhalf (fsub c1 c0)) :: cum_response in
      r ← broadcast2 fdiv (diff cum_response) (diff wave_edges);
      interp1d wave r (Fin 0)
  end.

End get_response_curve.

(** *** The data container and the correction log *)

Record log_entry : Type := LogEntry {
  log_status : string;
  log_units : string;
}.

(** A [DataContainer] (an RSS or a Cube) as far as [FluxCalibration.apply]
    reads and writes it.  The corrected arrays have two or three axes; they
    are kept as the list of their slices along axis 0, each slice flattened. *)
Record DataContainer : Type := mkDataContainer {
  info_name : string;
  wavelength : ndarray;
  intensity_corrected : list ndarray;
  variance_corrected : list ndarray;
  log : gmap string log_entry;
}.

(** The class attribute [FluxCalibration.name]. *)
Definition name : string := "FluxCalibration".

(** Modelled from the spec: [DataContainer.is_corrected], of the class
    hierarchy that the sources import; a container "has already been
    calibrated" when its log holds an entry under the correction's name. *)
Definition is_corrected (data_container : DataContainer) (correction : string)
    : bool :=
  bool_decide (is_Some (log data_container !! correction)).

(** Modelled from the spec: [CorrectionBase.log_correction], which "records
    the correction" in the container's log under the correction's name. *)
Definition log_correction (data_container : DataContainer)
    (status units : string) : DataContainer :=
  mkDataContainer (info_name data_container) (wavelength data_container)
    (intensity_corrected data_container) (variance_corrected data_container)
    (<[name := LogEntry status units]> (log data_container)).

(** [a /= response] for [response] of shape [(n, 1, ..., 1)], the result of
    [np.expand_dims(response, axis=tuple(range(1, a.ndim)))]: the slice [k]
    of [a] is divided by [response[k]].  An in-place operation keeps the
    shape of [a], so [n] must be the length of axis 0, or 1. *)
Definition idiv_axis0 (a : list ndarray) (response : ndarray)
    : result (list ndarray) :=
  if decide (length response = length a)
  then Ok (zip_with (λ slice r, map (λ v, fdiv v r) slice) a response)
  else match response with
       | [r] => Ok (map (map (λ v, fdiv v r)) a)
       | _ => Raise ValueError
       end.

(** [FluxCalibration.apply(response, data_container, response_units)].
    The container is mutated in place: the second component is the
    container after the call, also when an exception is raised. *)
Definition apply (response : ndarray) (data_container : DataContainer)
    (response_units : string) : result unit * DataContainer :=
  if is_corrected data_container name
  then (Raise CalibrationError, data_container)
  else
    match idiv_axis0 (intensity_corrected data_container) response with
    | Raise e => (Raise e, data_container)
    | Ok intensity =>
        let data_container :=
          mkDataContainer (info_name data_container)
            (wavelength data_container) intensity
            (variance_corrected data_container) (log data_container) in
        match idiv_axis0 (variance_corrected data_container)
                (map fsqr response) with
        | Raise e => (Raise e, data_container)
        | Ok variance =>
            let data_container :=
              mkDataContainer (info_name data_container)
                (wavelength data_container)
                (intensity_corrected data_container) variance
                (log data_container) in
            (Ok (), log_correction data_container "applied" response_units)
        end
    end.

(** *** Reading a calibration star *)

(** The files that the method can see: the listing of the directory
    [input_data/spectrophotometric_stars], the path of a file of that
    directory, and [np.loadtxt(path, unpack=True, usecols=(0, 1))]. *)
Record Files : Type := mkFiles {
  listdir_stars : list string;
  star_path : string → string;
  loadtxt : string → result (ndarray * ndarray);
}.

(** The attributes of a [FluxCalibration] object. *)
Record FluxCalibration : Type := mkFluxCalibration {
  calib_spectra : option ndarray;
  calib_wave : option ndarray;
  calib_units : R;
}.

(** [FluxCalibration.list_available_stars(verbose=False)] *)
Definition list_available_stars (fs : Files) : list string * list string :=
  let files := sort_str (listdir_stars fs) in
  let names := map (λ file, split0 "_" (split0 "." file)) files in
  (names, files).

(** Lines 319 to 321: the name under which the star is looked up. *)
Definition lookup_name (name : string) : result string :=
  let name := lower name in
  c ← str_getitem0 name;
  if negb (Ascii.eqb c "f") || contains "feige" name
  then Ok ("f" +:+ name)
  else Ok name.

(** [np.where(all_names == name)[0]] *)
Definition where_eq (all_names : list string) (name : string) : list nat :=
  (filter (λ p, p.2 = name) (imap (λ i n, (i, n)) all_names)).*1.

(** [FluxCalibration.read_calibration_star(name, path, flux_units)]: the
    returned pair and the object after the call. *)
Definition read_calibration_star (fs : Files) (self : FluxCalibration)
    (name path : option string) (flux_units : option R)
    : result (option ndarray * option ndarray) * FluxCalibration :=
  let flux_units := default (calib_units self) flux_units in
  let load (self : FluxCalibration) (path : string)
      : result FluxCalibration :=
    '(wave, spectra) ← loadtxt fs path;
    Ok (mkFluxCalibration (Some spectra) (Some wave) (calib_units self)) in
  let finish (self : FluxCalibration) (path : option string) :=
    match path with
    | Some p =>
        match load self p with
        | Ok self' => (Ok (calib_wave self', calib_spectra self'), self')
        | Raise e => (Raise e, self)
        end
    | None => (Ok (calib_wave self, calib_spectra self), self)
    end in
  match name with
  | Some name =>
      match lookup_name name with
      | Raise e => (Raise e, self)
      | Ok name =>
          let '(all_names, all_files) := list_available_stars fs in
          let match_ := where_eq all_names name in
          match last match_ with
          | Some i =>
              match getitem all_files i with
              | Raise e => (Raise e, self)
              | Ok file =>
                  let path := star_path fs file in
                  match load self path with
                  | Raise e => (Raise e, self)
                  | Ok self => finish self (Some path)
                  end
              end
          | None => (Raise FileNotFoundError, self)
          end
      end
  | None => finish self path
  end.

(** *** Extracting the stellar flux *)

(** The container as lines 176 to 204 read it: the wavelength array, the
    data as a matrix whose axis 0 is the wavelength (the transposed
    [intensity_corrected] of an RSS, the reshaped [intensity] of a Cube),
    and the offsets [x] and [y] of the spaxels. *)
Record StarData : Type := mkStarData {
  star_wavelength : ndarray;
  star_data : list ndarray;
  star_x : ndarray;
  star_y : ndarray;
}.

(** The lists that the loop over the wavelength chunks fills. *)
Record extraction : Type := mkExtraction {
  residuals : ndarray;
  profile_popt : list ndarray;
  profile_var : list ndarray;
  running_wavelength : ndarray;
  raw_flux : ndarray;
}.

(** [range(0, size, step)] for a step that is not negative. *)
Definition range_step (size step : nat) : result (list nat) :=
  if decide (step = 0%nat) then Raise ValueError
  else Ok (filter (λ k, (k < size)%nat) (map (λ k, (k * step)%nat) (seq 0 size))).

(** [pcov.diagonal()] *)
Definition diagonal (a : list ndarray) : ndarray :=
  imap (λ i (row : ndarray), row !!! i) a.

Section extract_stellar_flux.

(** [scipy.optimize.curve_fit(profile, r2, growth_c, bounds=p_bounds,
    p0=p0, **fitter_args)]: the optimal parameters and their covariance,
    or the exception that SciPy raises (it documents [ValueError] for
    unusable data or options and [RuntimeError] when the least-squares
    minimisation fails). *)
Variable curve_fit :
  (ndarray → ndarray → ndarray) → ndarray → ndarray →
  ndarray * ndarray → ndarray → result (ndarray * list ndarray).

(** One pass of the loop of lines 212 to 281, for the chunk that starts at
    [lambda_]. *)
Definition fit_chunk (profile : ndarray → ndarray → ndarray)
    (bounds : option (ndarray * ndarray)) (wave_window : nat)
    (wavelength : ndarray) (data : list ndarray) (x y : ndarray)
    (acc : extraction) (lambda_ : nat) : result extraction :=
  let mean_wave := nanmean (take wave_window (drop lambda_ wavelength)) in
  let slice_data := take wave_window (drop lambda_ data) in
  let slice_data := nanmean_axis0 slice_data (length (default [] (head data))) in
  if negb (existsb isfinite slice_data) then Ok acc
  else
    let slice_data := map (λ v, Fin (nan_to_zero v)) slice_data in
    '(x0, y0) ← Ancillary.centre_of_mass slice_data x y;
    y_min ← amin y;
    y_max ← amax y;
    x_min ← amin x;
    x_max ← amax x;
    '(r2, growth_c) ←
      Ancillary.growth_curve_1d slice_data
        (map (λ v, fsub v x0) x) (map (λ v, fsub v y0) y);
    total ← getitem_last growth_c;
    let raw_flux := raw_flux acc ++ [total] in
    let p_bounds :=
      match bounds with
      | None =>
          ([Fin 0; Fin 0; Fin 0],
           [fmul total (Fin 2);
            fmax (fsub x_max x_min) (fsub y_max y_min);
            Fin 4])
      | Some b => b
      end in
    let p0 :=
      [total;
       fdiv (fmin (fsub x_max x_min) (fsub y_max y_min)) (Fin 3);
       Fin 1] in
    match curve_fit profile r2 growth_c p_bounds p0 with
    | Raise FitError => Raise FitError
    | Raise e => Raise e
    | Ok (popt, pcov) =>
        residual ← broadcast2 fsub growth_c (profile r2 popt);
        Ok (mkExtraction
              (residuals acc ++ [nanmean residual])
              (profile_popt acc ++ [popt])
              (profile_var acc ++ [diagonal pcov])
              (running_wavelength acc ++ [mean_wave])
              raw_flux)
    end.

(** [FluxCalibration.extract_stellar_flux] with [plot=False]: the lists
    behind the entries [mean_wave], [optimal] and [variance] of the
    returned dictionary. *)
Definition extract_stellar_flux (data_container : StarData)
    (wave_range : option (float * float)) (wave_window : option nat)
    (profile : ndarray → ndarray → ndarray)
    (bounds : option (ndarray * ndarray)) : result extraction :=
  let wavelength := star_wavelength data_container in
  let wave_mask :=
    match wave_range with
    | Some (lo, hi) => map (λ w, negb (flt w lo || flt hi w)) wavelength
    | None => map (λ _, true) wavelength
    end in
  let wave_window := default 1%nat wave_window in
  wavelength ← boolean_index wavelength wave_mask;
  data ← boolean_index (star_data data_container) wave_mask;
  chunks ← range_step (length wavelength) wave_window;
  for_each
    (fit_chunk profile bounds wave_window wavelength data
       (star_x data_container) (star_y data_container))
    chunks (mkExtraction [] [] [] [] []).

End extract_stellar_flux.

End FluxCalibration.

(** ** [koala/ancillary.py]: the functions that read an RSS *)

Module AncillaryRSS.




(** [interpolate_nan(spectrum)]: [good] is the mask of the finite entries,
    for the indices that [np.where] returns. *)
Definition interpolate_nan (spectrum : ndarray) : result ndarray :=
  let inds := arange (length spectrum) in
  let good := map isfinite spectrum in
  x ← FluxCalibration.boolean_index inds good;
  y ← FluxCalibration.boolean_index spectrum good;
  f ← interp1d x y NaN;
  Ok (zip_with (λ s v, if isfinite s then s else v) spectrum (map f inds)).

End AncillaryRSS.

(** ** [pykoala/corrections/wavelength.py] and
       [pykoala/corrections/atmospheric_corrections.py] *)

Module PyKoala.
Local Open Scope R_scope.

(** *** FITS files *)

(** A header-data unit: its [EXTNAME] and its image ([None] when empty). *)
Record HDU : Type := mkHDU {
  hdu_name : string;
  hdu_data : option ndarray;
}.

(** A file: a FITS file with its list of HDUs, or anything else. *)
Inductive file : Type :=
| FitsFile (hdul : list HDU)
| OtherFile.

(** [fits.PrimaryHDU()] and [fits.ImageHDU(data=data, name=name)] *)
Definition PrimaryHDU : HDU := mkHDU "PRIMARY" None.
Definition ImageHDU (data : option ndarray) (name : string) : HDU :=
  mkHDU name data.

(** *** [WavelengthOffset] *)

Record WavelengthOffset : Type := mkWavelengthOffset {
  path : option string;
  offset_data : option ndarray;
  offset_error : option ndarray;
}.

Module WavelengthOffset.

(** [WavelengthOffset.tofits(output_path)]: the outcome and the files
    after the call ([hdul.writeto(output_path, overwrite=True)]). *)
Definition tofits (self : WavelengthOffset) (output_path : option string)
    (fs : gmap string file) : result unit * gmap string file :=
  let output_path :=
    match output_path with
    | None =>
        match path self with
        | None => Raise NameError
        | Some p => Ok p
        end
    | Some p => Ok p
    end in
  match output_path with
  | Raise e => (Raise e, fs)
  | Ok output_path =>
      let primary := PrimaryHDU in
      let data := ImageHDU (offset_data self) "OFFSET" in
      let error := ImageHDU (offset_error self) "OFFSET_ERR" in
      let hdul := [primary; data; error] in
      (Ok (), <[output_path := FitsFile hdul]> fs)
  end.

(** [WavelengthOffset.from_fits(path)] *)
Definition from_fits (path : string) (fs : gmap string file)
    : result WavelengthOffset :=
  match fs !! path with
  | None => Raise NameError
  | Some OtherFile => Raise OSError
  | Some (FitsFile hdul) =>
      h1 ← getitem hdul 1;
      h2 ← getitem hdul 2;
      Ok (mkWavelengthOffset (Some path) (hdu_data h1) (hdu_data h2))
  end.

End WavelengthOffset.

(** *** Spectra containers *)

Record history_entry : Type := mkHistoryEntry {
  entry_title : string;
  entry_status : string;
  entry_comment : string;
}.

(** A [SpectraContainer] through its row-stacked view: one row of
    [rss_intensity] and of [rss_variance] per fibre (or spaxel), one column
    per wavelength.  For an [RSS], [rss_intensity] is [intensity] itself. *)
Record SpectraContainer : Type := mkSpectraContainer {
  wavelength : ndarray;
  rss_intensity : list ndarray;
  rss_variance : list ndarray;
  info_airmass : option float;
  history : list history_entry;
}.

(** The invariant of the data model: the wavelength axis is as long as the
    spectral axis of the intensity and of the variance. *)
Definition spectral_axis_ok (sc : SpectraContainer) : Prop :=
  Forall (λ row, length row = length (wavelength sc)) (rss_intensity sc)
  ∧ Forall (λ row, length row = length (wavelength sc)) (rss_variance sc).

(** The shape of a two-dimensional array kept as its list of rows. *)
Definition shape (a : list ndarray) : list nat := map length a.

(** Modelled from the spec: [CorrectionBase.record_correction], of the
    class hierarchy that the sources import; it records the correction in
    the container's history and touches no array. *)
Definition record_correction (name : string) (sc : SpectraContainer)
    (status comment : string) : SpectraContainer :=
  mkSpectraContainer (wavelength sc) (rss_intensity sc) (rss_variance sc)
    (info_airmass sc) (history sc ++ [mkHistoryEntry name status comment]).

(** [a[i] = row] for a two-dimensional [a]: the value is broadcast to the
    length of the row that it replaces. *)
Definition setitem_row (a : list ndarray) (i : nat) (row : ndarray)
    : result (list ndarray) :=
  old ← getitem a i;
  if decide (length row = length old) then Ok (<[i := row]> a)
  else match row with
       | [v] => Ok (<[i := map (λ _, v) old]> a)
       | _ => Raise ValueError
       end.

(** *** [WavelengthCorrection] *)

Record WavelengthCorrection : Type := mkWavelengthCorrection {
  offset_path : option string;
  offset : option WavelengthOffset;
}.

Module WavelengthCorrection.

(** The class attribute [WavelengthCorrection.name]. *)
Definition name : string := "WavelengthCorrection".

(** [WavelengthCorrection.apply(rss)]; [rss.copy()] is the container
    itself, the input being a value that the function cannot mutate.  The
    interpolation that the module imports from [pykoala.ancillary] is taken
    to be the function of [koala/ancillary.py]. *)
Definition apply (self : WavelengthCorrection)
    (rss : SpectraContainer) : result SpectraContainer :=
  let rss_out := rss in
  let x := arange (length (wavelength rss)) in
  intensity ←
    for_each
      (λ intensity i,
         offset ← match offset self with
                  | Some o => Ok o
                  | None => Raise AttributeError
                  end;
         data ← match offset_data offset with
                | Some d => Ok d
                | None => Raise TypeError
                end;
         o ← getitem data i;
         row ← getitem (rss_intensity rss) i;
         new ← Ancillary.flux_conserving_interpolation
                 x (map (λ xi, fsub xi o) x) row;
         setitem_row intensity i new)
      (seq 0 (length (rss_intensity rss)))
      (rss_intensity rss_out);
  Ok (record_correction name
        (mkSpectraContainer (wavelength rss_out) intensity
           (rss_variance rss_out) (info_airmass rss_out) (history rss_out))
        "applied" "").

(** [WavelengthCorrection.from_fits(path)] *)
Definition from_fits (path : string) (fs : gmap string file)
    : result WavelengthCorrection :=
  offset ← WavelengthOffset.from_fits path fs;
  Ok (mkWavelengthCorrection (Some path) (Some offset)).

End WavelengthCorrection.

(** *** [AtmosphericExtCorrection] *)

(** The sample wavelengths are an array: [from_text_file] sets them
    together with [extinction_correction]. *)
Record AtmosphericExtCorrection : Type := mkAtmosphericExtCorrection {
  extinction_correction : option ndarray;
  extinction_correction_wave : ndarray;
  extinction_correction_file : string;
}.

Module AtmosphericExtCorrection.

(** The class attribute [AtmosphericExtCorrection.name]. *)
Definition name : string := "AtmosphericExtinction".

(** [10 ** y] *)
Definition fpow10 : float → float := lift1 (λ y, Rpower 10 y).

(** [AtmosphericExtCorrection.extinction(wavelength, airmass)]; [curve] is
    [self.extinction_correction], which is not [None] at the only call. *)
Definition extinction (self : AtmosphericExtCorrection) (curve : ndarray)
    (wavelength : ndarray) (airmass : float) : result ndarray :=
  extinction_correction ←
    interp wavelength (extinction_correction_wave self) curve;
  Ok (map (λ e, fpow10 (fmul (fmul (Fin (4 / 10)) airmass) e))
          extinction_correction).

(** [AtmosphericExtCorrection.apply(spectra_container, airmass)].  The
    product with [extinction] of shape [(1, n)] is taken row by row.  The
    recorded comment keeps the file name as it is given and leaves out the
    formatted airmass. *)
Definition apply (self : AtmosphericExtCorrection)
    (spectra_container : SpectraContainer) (airmass : option float)
    : result SpectraContainer :=
  let spectra_container_out := spectra_container in
  let airmass :=
    match airmass with
    | None => info_airmass spectra_container
    | Some a => Some a
    end in
  match extinction_correction self with
  | Some curve =>
      (* formatting the airmass with [:.2f] *)
      airmass ← match airmass with
                | Some a => Ok a
                | None => Raise TypeError
                end;
      extinction ←
        extinction self curve (wavelength spectra_container_out) airmass;
      let comment :=
        "Atm. extinction file :" +:+ extinction_correction_file self in
      intensity ←
        mapM (M := result) (λ row, broadcast2 fmul row extinction)
          (rss_intensity spectra_container_out);
      variance ←
        mapM (M := result) (λ row, broadcast2 fmul row (map fsqr extinction))
          (rss_variance spectra_container_out);
      Ok (record_correction name
            (mkSpectraContainer (wavelength spectra_container_out)
               intensity variance (info_airmass spectra_container_out)
               (history spectra_container_out))
            "applied" comment)
  | None => Raise AttributeError
  end.

End AtmosphericExtCorrection.

(** *** [SolarCrossCorrOffset] *)

Record SolarCrossCorrOffset : Type := mkSolarCrossCorrOffset {
  sun_wavelength : ndarray;
  sun_intensity : ndarray;
  solar_offset : WavelengthOffset;
}.

(** What [compute_shift_from_twilight] returns: the entries ["best-fit"]
    and ["mean"] of the dictionary (["fibre_figures"] is [None]). *)
Record shift_results : Type := mkShiftResults {
  best_fit : ndarray * ndarray;
  mean_fit : ndarray * ndarray;
}.

Module SolarCrossCorrOffset.

(** One entry of [all_chi2[i]]: the weighted mean square difference
    between a model and a fibre, [np.nansum(..., axis=-1)] over the
    pixels. *)
Definition chi2 (model weight fibre fibre_weight : ndarray) : result float :=
  d ← broadcast2 fsub model fibre;
  t ← broadcast2 fmul (map fsqr d) weight;
  t ← broadcast2 fmul t fibre_weight;
  w ← broadcast2 fmul weight fibre_weight;
  Ok (fdiv (nansum t) (nansum w)).

(** The value assigned to [all_chi2[i]], a slot of shape [(m, n_fibres)]. *)
Definition chi2_block (m n_fibres : nat) (models weights : list ndarray)
    (normalized_rss_intensity fibre_weights : list ndarray)
    : result (list ndarray) :=
  mw ← broadcast_axis models weights;
  nf ← broadcast_axis normalized_rss_intensity fibre_weights;
  block ← mapM (M := result)
            (λ mw, mapM (M := result)
                     (λ nf, chi2 mw.1 mw.2 nf.1 nf.2) nf) mw;
  block ← mapM (M := result) (fit_axis n_fibres) block;
  fit_axis m block.

(** Lines 455 to 469: [all_chi2], of shape [(n, m, n_fibres)]. *)
Definition all_chi2 (n m n_fibres : nat)
    (models_grid weights_grid : list (list ndarray))
    (normalized_rss_intensity fibre_weights : list ndarray)
    : result (list (list ndarray)) :=
  mapM (M := result)
    (λ i, models ← getitem models_grid i;
          weights ← getitem weights_grid i;
          chi2_block m n_fibres models weights
            normalized_rss_intensity fibre_weights)
    (seq 0 n).

(** [a.reshape((-1, a.shape[-1]))[:, f]]: the entries of fibre [f] over the
    grid, in row-major order. *)
Definition grid_column (a : list (list ndarray)) (f : nat) : ndarray :=
  concat (map (map (λ cell : ndarray, cell !!! f)) a).

(** Lines 471 and 472: the likelihood, normalised for each fibre. *)
Definition likelihood (n_fibres : nat) (all_chi2 : list (list ndarray))
    : result (list (list ndarray)) :=
  chi2_min ← amin (concat (concat all_chi2));
  let likelihood :=
    map (map (map (λ c, fexp (fhalf (fneg (fsub c chi2_min)))))) all_chi2 in
  let norm := map (λ f, nansum (grid_column likelihood f)) (seq 0 n_fibres) in
  Ok (map (map (λ cell, zip_with fdiv cell norm)) likelihood).

(** [compute_shift_from_twilight] from line 455 on, with
    [inspect_fibres=None].  The arguments are the locals that the first
    part of the method has computed with NumPy and SciPy filters:
    [rss_intensity] (one row per fibre of the container), the grid of models
    and of weights, the fibre weights and the normalised intensity.  The
    result is the object after the call and the returned dictionary. *)
Definition compute_shift_from_twilight (self : SolarCrossCorrOffset)
    (pix_shift_array pix_std_array : ndarray)
    (rss_intensity : list ndarray)
    (models_grid weights_grid : list (list ndarray))
    (fibre_weights normalized_rss_intensity : list ndarray)
    (use_mean : bool) : result (SolarCrossCorrOffset * shift_results) :=
  let n := length pix_shift_array in
  let m := length pix_std_array in
  let n_fibres := length rss_intensity in
  all_chi2 ← all_chi2 n m n_fibres models_grid weights_grid
                normalized_rss_intensity fibre_weights;
  likelihood ← likelihood n_fibres all_chi2;
  let mean_pix_shift :=
    map (λ f, sum (zip_with
                     (λ row shift,
                        fmul (sum (map (λ cell : ndarray, cell !!! f) row))
                             shift)
                     likelihood pix_shift_array))
        (seq 0 n_fibres) in
  let mean_std :=
    map (λ f, sum (zip_with
                     (λ j std,
                        fmul (sum (map (λ row : list ndarray,
                                          (row !!! j : ndarray) !!! f)
                                       likelihood))
                             std)
                     (seq 0 m) pix_std_array))
        (seq 0 n_fibres) in
  best_fit_idx ← mapM (M := result)
                   (λ f, argmax (grid_column likelihood f)) (seq 0 n_fibres);
  let best_vel_idx := map (λ k, k / m)%nat best_fit_idx in
  let best_std_idx := map (λ k, k mod m)%nat best_fit_idx in
  best_sigma ← mapM (M := result) (getitem pix_std_array) best_std_idx;
  best_shift ← mapM (M := result) (getitem pix_shift_array) best_vel_idx;
  let offset_data :=
    if use_mean then map fneg mean_pix_shift else map fneg best_shift in
  let offset_error := map (λ _, NaN) best_shift in
  Ok (mkSolarCrossCorrOffset (sun_wavelength self) (sun_intensity self)
        (mkWavelengthOffset (path (solar_offset self))
           (Some offset_data) (Some offset_error)),
      mkShiftResults (best_shift, best_sigma) (mean_pix_shift, mean_std)).

Section compute_grid_of_models.

(** [scipy.ndimage.gaussian_filter(input, sigma, truncate=truncate)], which
    is not part of the repository's sources; [None] stands for the default
    of [truncate]. *)
Variable gaussian_filter : ndarray → float → option float → ndarray.



End compute_grid_of_models.

End SolarCrossCorrOffset.

End PyKoala.

(** * Part II: lemmas and theorems *)

Import Ancillary Exact.
Local Open Scope R_scope.

(** ** Arrays without NaN *)

Lemma zip_with_lift2 (f : R → R → R) (a b : list R) :
  zip_with (lift2 f) (map Fin a) (map Fin b) = map Fin (zip_with f a b).
Proof.
  revert b. induction a as [|x a IH]; intros [|y b]; simpl; try reflexivity.
  now rewrite IH.
Qed.

Lemma diff_Fin (l : list R) : diff (map Fin l) = map Fin (diffR l).
Proof.
  unfold diff, diffR, fsub. destruct l as [|x l]; [reflexivity|].
  simpl tail. apply (zip_with_lift2 Rminus l (x :: l)).
Qed.


Lemma length_diffR (l : list R) : length (diffR l) = pred (length l).
Proof.
  unfold diffR. rewrite length_zip_with. destruct l; simpl; lia.
Qed.

Lemma finite_Fin (l : list R) : finite (map Fin l) = Some l.
Proof. induction l as [|x l IH]; simpl; [reflexivity|]. now rewrite IH. Qed.

Lemma finite_Some (a : ndarray) (l : list R) :
  finite a = Some l → a = map Fin l.
Proof.
  revert l. induction a as [|[x|] a IH]; intros l; simpl.
  - now intros [= <-].
  - destruct (finite a) as [l'|]; simpl; [|discriminate].
    intros [= <-]. simpl. now rewrite (IH l').
  - discriminate.
Qed.

(** ** Bin edges *)

Lemma bin_edges_two (x y : R) :
  bin_edges [Fin x; Fin y] = Ok (map Fin (edgesR [x; y])).
Proof. reflexivity. Qed.

Lemma bin_edges_step (x y z : R) (r : list R) (e0 : float) (es : ndarray) :
  bin_edges (map Fin (y :: z :: r)) = Ok (e0 :: es) →
  bin_edges (map Fin (x :: y :: z :: r))
  = Ok (Fin (x - (y - x) / 2) :: Fin (x + (y - x) / 2) :: es).
Proof.
  unfold bin_edges. simpl map.
  cbn [getitem lookup list_lookup diff tail zip_with mbind result_bind fsub lift2].
  unfold getitem_last. cbn [last].
  destruct (last (Fin z :: map Fin r)) as [wl|]; [|discriminate].
  destruct (last (Fin (z - y) :: _)) as [dl|]; [|discriminate].
  cbn. intros [= <- <-]. reflexivity.
Qed.

Lemma bin_edges_Fin (w : list R) :
  (2 ≤ length w)%nat → bin_edges (map Fin w) = Ok (map Fin (edgesR w)).
Proof.
  destruct w as [|x [|y r]]; simpl length; try lia. intros _.
  revert x y. induction r as [|z r IH]; intros x y.
  - reflexivity.
  - rewrite (bin_edges_step x y z r _ _ (IH y z)). reflexivity.
Qed.

Lemma bin_edges_short (w : ndarray) :
  (length w < 2)%nat → bin_edges w = Raise IndexError.
Proof. destruct w as [|x [|y r]]; simpl; try lia; reflexivity. Qed.

Lemma length_mids_last (x : R) (l : list R) :
  l ≠ [] → length (mids_last x l) = S (length l).
Proof.
  revert x. induction l as [|y l IH]; intros x Hl; [done|].
  destruct l as [|z l]; [reflexivity|].
  change (mids_last x (y :: z :: l)) with ((x + (y - x) / 2) :: mids_last y (z :: l)).
  cbn [length]. rewrite IH; [reflexivity|done].
Qed.

Lemma length_edgesR (w : list R) :
  (2 ≤ length w)%nat → length (edgesR w) = S (length w).
Proof.
  destruct w as [|x [|y r]]; intros H; simpl in H; try lia.
  unfold edgesR. cbn [length]. rewrite length_mids_last; [reflexivity|done].
Qed.

(** The interior edges lie strictly between the first and the last sample,
    and the last edge lies beyond the last sample. *)
Lemma mids_last_increasing (x : R) (l : list R) :
  increasing (x :: l) → l ≠ [] →
  increasing (mids_last x l) ∧ Forall (Rlt x) (mids_last x l).
Proof.
  revert x. induction l as [|y l IH]; intros x Hs Hl; [done|].
  apply StronglySorted_inv in Hs as [Hs Hx].
  destruct l as [|z l].
  - apply Forall_cons in Hx as [Hxy _]. simpl. split.
    + repeat constructor. lra.
    + repeat constructor; lra.
  - change (mids_last x (y :: z :: l)) with ((x + (y - x) / 2) :: mids_last y (z :: l)).
    destruct (IH y Hs ltac:(done)) as [IH1 IH2].
    apply Forall_cons in Hx as [Hxy Hx]. split.
    + constructor; [exact IH1|].
      eapply Forall_impl; [exact IH2|]. intros e He. simpl in He. lra.
    + constructor; [lra|].
      eapply Forall_impl; [exact IH2|]. intros e He. simpl in He. lra.
Qed.

Lemma edgesR_increasing (w : list R) :
  increasing w → (2 ≤ length w)%nat → increasing (edgesR w).
Proof.
  destruct w as [|x [|y r]]; simpl length; try lia. intros Hs _.
  unfold edgesR.
  destruct (mids_last_increasing x (y :: r) Hs ltac:(done)) as [H1 H2].
  constructor; [exact H1|].
  apply StronglySorted_inv in Hs as [_ Hx]. apply Forall_cons in Hx as [Hxy _].
  eapply Forall_impl; [exact H2|]. intros e He. simpl in He. lra.
Qed.

(** ** Differences and running sums *)


Lemma nancumsum_Fin (l : list R) :
  nancumsum (map Fin l) = map Fin (cumsumR 0 l).
Proof.
  unfold nancumsum, cumsum. generalize 0.
  induction l as [|v l IH]; intros acc; [reflexivity|].
  simpl. now rewrite IH.
Qed.

Lemma length_cumsumR (acc : R) (l : list R) :
  length (cumsumR acc l) = length l.
Proof. revert acc. induction l; intros; simpl; [reflexivity|]. now rewrite IHl. Qed.


Lemma last_cons_default {A} (x d1 d2 : A) (l : list A) :
  List.last (x :: l) d1 = List.last (x :: l) d2.
Proof.
  revert x. induction l as [|y l IH]; intros x; [reflexivity|].
  change (List.last (y :: l) d1 = List.last (y :: l) d2). apply IH.
Qed.

Lemma last_cons_self {A} (x d : A) (l : list A) :
  List.last (x :: l) d = List.last l x.
Proof.
  destruct l as [|y l]; [reflexivity|].
  change (List.last (y :: l) d = List.last (y :: l) x). apply last_cons_default.
Qed.



Lemma zip_with_fdiv_Fin (a b : list R) :
  Forall (λ d, d ≠ 0) b →
  zip_with fdiv (map Fin a) (map Fin b) = map Fin (zip_with Rdiv a b).
Proof.
  intros Hb. revert a. induction Hb as [|d b Hd Hb IH]; intros [|x a]; try reflexivity.
  simpl. rewrite IH. destruct (decide (d = 0)); [contradiction|reflexivity].
Qed.


(** ** Linear interpolation *)

Lemma interp_scan_Fin (x : R) (xp fp : list R) :
  increasing xp → length xp = length fp → xp ≠ [] →
  interp_scan x xp (map Fin fp) = Fin (interp_scanR x xp fp).
Proof.
  revert fp. induction xp as [|x0 xp IH]; intros fp Hs Hl Hne; [done|].
  destruct fp as [|y0 fp]; [done|].
  destruct xp as [|x1 xp]; [destruct fp; [reflexivity|done]|].
  destruct fp as [|y1 fp]; [done|].
  apply StronglySorted_inv in Hs as [Hs Hx]. apply Forall_cons in Hx as [Hx _].
  cbn [interp_scan interp_scanR map].
  destruct (decide (x < x1)).
  - destruct (decide (x = x0)); [reflexivity|].
    cbn. destruct (decide (x1 - x0 = 0)); [lra|reflexivity].
  - apply (IH (y1 :: fp)); [exact Hs | simpl in *; lia | done].
Qed.

Lemma interp1_Fin (x : R) (xp fp : list R) :
  increasing xp → length xp = length fp → xp ≠ [] →
  interp1 (Fin x) xp (map Fin fp) = Fin (interp1R x xp fp).
Proof.
  intros Hs Hl Hne. destruct xp as [|x0 xp]; [done|].
  destruct fp as [|y0 fp]; [done|].
  cbn [interp1 interp1R map]. destruct (decide (x < x0)); [reflexivity|].
  now apply (interp_scan_Fin x (x0 :: xp) (y0 :: fp)).
Qed.




(** ** Reductions on arrays without NaN *)

Lemma sum_Fin (l : list R) : sum (map Fin l) = Fin (sumR l).
Proof.
  unfold sum. induction l as [|x l IH]; [reflexivity|].
  simpl. rewrite IH. reflexivity.
Qed.

Lemma nansum_Fin (l : list R) : nansum (map Fin l) = Fin (sumR l).
Proof.
  unfold nansum. f_equal. induction l as [|x l IH]; [reflexivity|].
  simpl. now rewrite IH.
Qed.

Lemma broadcast2_same_length (f : float → float → float) (a b : ndarray) :
  length a = length b → broadcast2 f a b = Ok (zip_with f a b).
Proof. intros H. unfold broadcast2. now rewrite decide_True. Qed.




Lemma last_Some_default {A} (l : list A) (x d : A) :
  last l = Some x → List.last l d = x.
Proof.
  induction l as [|y l IH]; [done|].
  destruct l as [|z l]; [now intros [= ->]|].
  intros H. change (List.last (z :: l) d = x). apply IH. exact H.
Qed.

Lemma head_Some_default {A} (l : list A) (x d : A) :
  head l = Some x → hd d l = x.
Proof. destruct l; [done|]. now intros [= ->]. Qed.

(** ** [flux_conserving_interpolation] on arrays without NaN *)

Lemma length_cum_fluxR (w s : list R) :
  (2 ≤ length w)%nat → length s = length w →
  length (cum_fluxR w s) = length (edgesR w).
Proof.
  intros Hw Hs. unfold cum_fluxR. cbn [length].
  rewrite length_cumsumR, length_zip_with, length_diffR, length_edgesR by lia.
  simpl. lia.
Qed.

Lemma flux_conserving_interpolation_Fin (nw w s : list R) :
  increasing w → (2 ≤ length w)%nat → length s = length w →
  (2 ≤ length nw)%nat →
  flux_conserving_interpolation (map Fin nw) (map Fin w) (map Fin s)
  = Ok (zip_with fdiv (map Fin (diffR (new_cum_fluxR nw w s)))
                      (map Fin (diffR (edgesR nw)))).
Proof.
  intros Hinc Hw Hs Hnw. unfold flux_conserving_interpolation.
  rewrite (bin_edges_Fin w Hw), (bin_edges_Fin nw Hnw). cbn [mbind result_bind].
  rewrite !diff_Fin.
  rewrite broadcast2_same_length
    by (rewrite !length_map, length_diffR, length_edgesR by lia; simpl; lia).
  cbn [mbind result_bind]. unfold fmul. rewrite zip_with_lift2, nancumsum_Fin.
  change (Fin 0 :: map Fin ?l) with (map Fin (0 :: l)).
  fold (cum_fluxR w s).
  pose proof (length_cum_fluxR w s Hw Hs) as Hc.
  pose proof (edgesR_increasing w Hinc Hw) as He.
  pose proof (length_edgesR w Hw) as Hle.
  unfold interp. rewrite !length_map.
  rewrite decide_False by lia. rewrite decide_True by lia.
  rewrite finite_Fin. cbn [mbind result_bind].
  rewrite map_map.
  erewrite map_ext; [|intros x; apply interp1_Fin; [exact He | lia | intros E; rewrite E in Hle; simpl in Hle; lia]].
  rewrite <- (map_map (λ x, interp1R x (edgesR w) (cum_fluxR w s)) Fin).
  fold (new_cum_fluxR nw w s). rewrite diff_Fin.
  apply broadcast2_same_length.
  rewrite !length_map, !length_diffR. unfold new_cum_fluxR. now rewrite length_map.
Qed.






(** The total change of the cumulative flux between the outer new edges,
    when these coincide with the outer old edges, is the old total flux. *)
Lemma last_cons_Some {A} (x : A) (l : list A) :
  last (x :: l) = Some (List.last l x).
Proof.
  revert x. induction l as [|y l IH]; intros x; [reflexivity|].
  change (last (y :: l) = Some (List.last (y :: l) x)).
  rewrite IH. f_equal. symmetry. apply last_cons_self.
Qed.


(** ** [flux_conserving_interpolation]: conservation of flux *)



(** ** [interp1d] on increasing abscissas *)

Lemma insert_sample_head (p : R * float) (l : list (R * float)) :
  Forall (λ q, p.1 < q.1) l → insert_sample p l = p :: l.
Proof.
  intros H. destruct l as [|q l]; [reflexivity|].
  apply Forall_cons in H as [H _]. simpl.
  destruct (decide (p.1 <= q.1)); [reflexivity|lra].
Qed.

Lemma sort_samples_increasing (l : list (R * float)) :
  increasing (l.*1) → sort_samples l = l.
Proof.
  induction l as [|p l IH]; intros Hs; [reflexivity|].
  rewrite fmap_cons in Hs. apply StronglySorted_inv in Hs as [Hs Hp].
  cbn [sort_samples foldr]. fold (sort_samples l). rewrite (IH Hs).
  apply insert_sample_head. now rewrite Forall_fmap in Hp.
Qed.

Lemma increasing_lookup_le (l : list R) (i j : nat) (x y : R) :
  increasing l → l !! i = Some x → l !! j = Some y → (i ≤ j)%nat → x <= y.
Proof.
  intros Hs. revert i j. induction Hs as [|z l Hs IH Hz]; intros i j Hi Hj Hij; [done|].
  destruct i as [|i], j as [|j]; simpl in Hi, Hj; try lia.
  - injection Hi as ->. injection Hj as ->. lra.
  - injection Hi as ->. rewrite Forall_forall in Hz. left. apply Hz.
    eapply list_elem_of_lookup_2. exact Hj.
  - apply (IH i j Hi Hj). lia.
Qed.

Lemma increasing_bounds (l : list R) (j : nat) (x : R) :
  increasing l → l !! j = Some x → hd 0 l <= x <= List.last l 0.
Proof.
  intros Hs Hj. destruct l as [|y l]; [done|].
  rewrite last_cons_self. cbn [hd]. split.
  - apply (increasing_lookup_le (y :: l) 0 j); [exact Hs|reflexivity|exact Hj|lia].
  - pose proof (last_cons_Some y l) as H. rewrite last_lookup in H.
    apply (increasing_lookup_le (y :: l) j (pred (length (y :: l)))); try assumption.
    apply lookup_lt_Some in Hj. lia.
Qed.


(** ** [FluxCalibration.get_response_curve] *)


Section response.
Import FluxCalibration.
Variable mask_lines : ndarray → list bool.
Variable gaussian_filter1d : ndarray → float → ndarray.
Variable polyfit_deriv : ndarray → ndarray → nat → result (float → float).


End response.




(** ** [FluxCalibration.read_calibration_star] *)

Lemma insert_str_elem_of (x s : string) (l : list string) :
  x ∈ insert_str s l ↔ x = s ∨ x ∈ l.
Proof.
  induction l as [|t l IH]; simpl.
  - rewrite list_elem_of_singleton, elem_of_nil. tauto.
  - destruct (String.leb s t); rewrite !elem_of_cons; [tauto|].
    rewrite IH. tauto.
Qed.

Lemma sort_str_elem_of (x : string) (l : list string) :
  x ∈ sort_str l ↔ x ∈ l.
Proof.
  induction l as [|s l IH]; simpl; [reflexivity|].
  rewrite insert_str_elem_of, elem_of_cons, IH. reflexivity.
Qed.

Lemma where_eq_nil (all_names : list string) (key : string) :
  Forall (λ n, n ≠ key) all_names →
  FluxCalibration.where_eq all_names key = [].
Proof.
  intros H. unfold FluxCalibration.where_eq.
  enough (filter (λ p : nat * string, p.2 = key)
            (imap (λ i n, (i, n)) all_names) = []) as -> by reflexivity.
  assert (∀ (f : nat → nat), filter (λ p : nat * string, p.2 = key)
            (imap (λ i n, (f i, n)) all_names) = []) as Hgen.
  { induction H as [|n l Hn Hl IH]; intros f; [reflexivity|].
    cbn [imap]. rewrite filter_cons_False by (simpl; exact Hn).
    apply (IH (f ∘ S)). }
  apply (Hgen (λ i, i)).
Qed.

Lemma lookup_name_nonempty (c : ascii) (s : string) :
  FluxCalibration.lookup_name (String c s)
  = Ok (if negb (String.prefix "f" (lower (String c s)))
           || contains "feige" (lower (String c s))
        then "f" +:+ lower (String c s) else lower (String c s)).
Proof.
  unfold FluxCalibration.lookup_name. cbn [lower str_getitem0 mbind result_bind].
  cbn [String.prefix].
  destruct (ascii_dec "f" (lower_char c)) as [E|E].
  - rewrite <- E, Ascii.eqb_refl.
    assert (String.prefix "" (lower s) = true) as -> by (destruct (lower s); reflexivity).
    destruct (contains _ _); reflexivity.
  - assert (Ascii.eqb (lower_char c) "f" = false) as ->
      by (apply Ascii.eqb_neq; congruence).
    reflexivity.
Qed.

(** C10 (amended).  For every non-empty name the lookup key is the
    lowercased name, with an ['f'] prepended whenever the lowercased name
    does not start with ['f'] or contains ['feige'] (so a name containing
    ['feige'] is always searched with one more ['f'] in front); and when no
    file of the star directory has that key as its star name,
    [FileNotFoundError] is raised and the object is left as it was. *)
Theorem read_calibration_star_lookup_name (name : string) :
  name ≠ EmptyString →
  ∃ key : string,
    FluxCalibration.lookup_name name = Ok key
    ∧ key = (if negb (String.prefix "f" (lower name))
                || contains "feige" (lower name)
             then "f" +:+ lower name else lower name)
    ∧ (contains "feige" (lower name) = true → key = "f" +:+ lower name)
    ∧ ∀ (fs : FluxCalibration.Files) (self : FluxCalibration.FluxCalibration)
        (path : option string) (flux_units : option R),
        (∀ file, file ∈ FluxCalibration.listdir_stars fs →
                 split0 "_" (split0 "." file) ≠ key) →
        FluxCalibration.read_calibration_star fs self (Some name) path flux_units
        = (Raise FileNotFoundError, self).
Proof.
  intros Hne. destruct name as [|c s]; [done|].
  eexists. split; [apply lookup_name_nonempty|]. split; [reflexivity|]. split.
  - intros ->. now rewrite orb_true_r.
  - intros fs self path units Hno.
    unfold FluxCalibration.read_calibration_star.
    rewrite lookup_name_nonempty. cbv zeta.
    unfold FluxCalibration.list_available_stars.
    rewrite where_eq_nil; [reflexivity|].
    rewrite Forall_forall. intros n Hn.
    apply list_elem_of_fmap in Hn as (file & -> & Hfile).
    apply Hno. now apply sort_str_elem_of.
Qed.

Lemma read_calibration_star_lookup_name_witness :
  ∃ key : string,
    FluxCalibration.lookup_name "Feige34" = Ok key
    ∧ key = (if negb (String.prefix "f" (lower "Feige34"))
                || contains "feige" (lower "Feige34")
             then "f" +:+ lower "Feige34" else lower "Feige34")
    ∧ (contains "feige" (lower "Feige34") = true → key = "f" +:+ lower "Feige34")
    ∧ ∀ (fs : FluxCalibration.Files) (self : FluxCalibration.FluxCalibration)
        (path : option string) (flux_units : option R),
        (∀ file, file ∈ FluxCalibration.listdir_stars fs →
                 split0 "_" (split0 "." file) ≠ key) →
        FluxCalibration.read_calibration_star fs self (Some "Feige34") path flux_units
        = (Raise FileNotFoundError, self).
Proof. apply (read_calibration_star_lookup_name "Feige34"). discriminate. Defined.

Example lookup_name_feige : FluxCalibration.lookup_name "Feige34" = Ok "ffeige34".
Proof. reflexivity. Qed.

Example lookup_name_hd : FluxCalibration.lookup_name "HD49798" = Ok "fhd49798".
Proof. reflexivity. Qed.

Example lookup_name_f : FluxCalibration.lookup_name "fhilt600" = Ok "fhilt600".
Proof. reflexivity. Qed.

(** C10, as stated for every name that is not [None], fails at the empty
    name: [name[0]] raises [IndexError] before any key is formed, and that
    exception, not [FileNotFoundError], reaches the caller although no star
    file matches. *)
Lemma read_calibration_star_empty_name_counterexample :
  FluxCalibration.lookup_name "" = Raise IndexError
  ∧ FluxCalibration.read_calibration_star
      (FluxCalibration.mkFiles [] (λ file, file) (λ _, Raise FileNotFoundError))
      (FluxCalibration.mkFluxCalibration None None (/ 10 ^ 16))
      (Some EmptyString) None None
    = (Raise IndexError,
       FluxCalibration.mkFluxCalibration None None (/ 10 ^ 16)).
Proof. split; reflexivity. Qed.

(** ** [WavelengthOffset]: the FITS round trip *)

(** C7.  For a [WavelengthOffset] whose [offset_data] and [offset_error]
    are arrays, [tofits] (given an output path, or with [self.path] set)
    writes a file made of an empty primary HDU followed by the HDUs
    ["OFFSET"] and ["OFFSET_ERR"], and [from_fits] of that file returns an
    offset with the same [offset_data] and [offset_error]. *)
Theorem WavelengthOffset_fits_round_trip (self : PyKoala.WavelengthOffset)
    (output_path : option string) (fs : gmap string PyKoala.file)
    (data error : ndarray) (p : string) :
  PyKoala.offset_data self = Some data →
  PyKoala.offset_error self = Some error →
  output_path = Some p ∨ (output_path = None ∧ PyKoala.path self = Some p) →
  ∃ fs' : gmap string PyKoala.file,
    PyKoala.WavelengthOffset.tofits self output_path fs = (Ok (), fs')
    ∧ fs' !! p
      = Some (PyKoala.FitsFile
                [PyKoala.PrimaryHDU;
                 PyKoala.mkHDU "OFFSET" (Some data);
                 PyKoala.mkHDU "OFFSET_ERR" (Some error)])
    ∧ PyKoala.hdu_data PyKoala.PrimaryHDU = None
    ∧ (∀ q, q ≠ p → fs' !! q = fs !! q)
    ∧ ∃ loaded : PyKoala.WavelengthOffset,
        PyKoala.WavelengthOffset.from_fits p fs' = Ok loaded
        ∧ PyKoala.offset_data loaded = PyKoala.offset_data self
        ∧ PyKoala.offset_error loaded = PyKoala.offset_error self.
Proof.
  intros Hd He Hp. unfold PyKoala.WavelengthOffset.tofits.
  assert (match output_path with
          | None => match PyKoala.path self with
                    | None => Raise NameError
                    | Some p => Ok p
                    end
          | Some p => Ok p
          end = Ok p) as ->.
  { destruct Hp as [->|[-> ->]]; reflexivity. }
  cbv zeta. eexists. split; [reflexivity|].
  rewrite lookup_insert_eq, Hd, He.
  split; [reflexivity|]. split; [reflexivity|]. split.
  - intros q Hq. now rewrite lookup_insert_ne.
  - unfold PyKoala.WavelengthOffset.from_fits. rewrite lookup_insert_eq.
    eexists. split; [reflexivity|]. split; reflexivity.
Qed.

Lemma WavelengthOffset_fits_round_trip_witness :
  ∃ fs' : gmap string PyKoala.file,
    PyKoala.WavelengthOffset.tofits
      (PyKoala.mkWavelengthOffset None (Some [Fin 1; Fin 2]) (Some [NaN; NaN]))
      (Some "offset.fits") ∅ = (Ok (), fs')
    ∧ fs' !! "offset.fits"
      = Some (PyKoala.FitsFile
                [PyKoala.PrimaryHDU;
                 PyKoala.mkHDU "OFFSET" (Some [Fin 1; Fin 2]);
                 PyKoala.mkHDU "OFFSET_ERR" (Some [NaN; NaN])])
    ∧ PyKoala.hdu_data PyKoala.PrimaryHDU = None
    ∧ (∀ q, q ≠ "offset.fits" → fs' !! q = (∅ : gmap string PyKoala.file) !! q)
    ∧ ∃ loaded : PyKoala.WavelengthOffset,
        PyKoala.WavelengthOffset.from_fits "offset.fits" fs' = Ok loaded
        ∧ PyKoala.offset_data loaded = Some [Fin 1; Fin 2]
        ∧ PyKoala.offset_error loaded = Some [NaN; NaN].
Proof.
  apply (WavelengthOffset_fits_round_trip
           (PyKoala.mkWavelengthOffset None (Some [Fin 1; Fin 2]) (Some [NaN; NaN]))
           (Some "offset.fits") ∅ [Fin 1; Fin 2] [NaN; NaN] "offset.fits").
  - reflexivity.
  - reflexivity.
  - left. reflexivity.
Defined.

(** Without an output path and without [self.path], [tofits] raises
    [NameError] and writes nothing. *)
Lemma tofits_no_path (self : PyKoala.WavelengthOffset)
    (fs : gmap string PyKoala.file) :
  PyKoala.path self = None →
  PyKoala.WavelengthOffset.tofits self None fs = (Raise NameError, fs).
Proof. intros H. unfold PyKoala.WavelengthOffset.tofits. now rewrite H. Qed.

(** ** [FluxCalibration.apply] *)

Lemma is_corrected_log_correction (dc : FluxCalibration.DataContainer)
    (status units : string) :
  FluxCalibration.is_corrected
    (FluxCalibration.log_correction dc status units) FluxCalibration.name
  = true.
Proof.
  unfold FluxCalibration.is_corrected, FluxCalibration.log_correction. simpl.
  apply bool_decide_eq_true. rewrite lookup_insert_eq. eauto.
Qed.


Lemma idiv_axis0_shape (a a' : list ndarray) (response : ndarray) :
  FluxCalibration.idiv_axis0 a response = Ok a' →
  map length a' = map length a.
Proof.
  unfold FluxCalibration.idiv_axis0. destruct (decide _) as [E|E].
  - intros [= <-]. revert response E.
    induction a as [|s a IH]; intros [|r response] E; simpl in *; try lia; [reflexivity|].
    rewrite length_map. f_equal. apply IH. lia.
  - destruct response as [|r [|? ?]]; try discriminate. intros [= <-].
    rewrite map_map. apply map_ext. intros s. now rewrite length_map.
Qed.



(** ** Loops and element-wise maps in the error monad *)

Lemma for_each_invariant {A S} (P : S → Prop) (body : S → A → result S)
    (l : list A) (s s' : S) :
  (∀ s x s', P s → body s x = Ok s' → P s') →
  P s → for_each body l s = Ok s' → P s'.
Proof.
  intros Hbody. revert s. induction l as [|x l IH]; intros s Hs; simpl.
  - now intros [= <-].
  - destruct (body s x) as [s1|e] eqn:E; cbn; [|discriminate].
    apply IH. eapply Hbody; eassumption.
Qed.

Lemma mapM_Ok_Forall2 {A B} (f : A → result B) (l : list A) (r : list B) :
  mapM (M := result) f l = Ok r → Forall2 (λ x y, f x = Ok y) l r.
Proof.
  revert r. induction l as [|x l IH]; intros r; cbn.
  - intros [= <-]. constructor.
  - destruct (f x) as [y|e] eqn:E; cbn; [|discriminate].
    destruct (mapM f l) as [k|e]; cbn; [|discriminate].
    intros [= <-]. constructor; [exact E|]. now apply IH.
Qed.

Lemma mapM_Ok_length {A B} (f : A → result B) (l : list A) (r : list B) :
  mapM (M := result) f l = Ok r → length r = length l.
Proof. intros H. symmetry. eapply Forall2_length, mapM_Ok_Forall2, H. Qed.

Lemma mapM_Ok_intro {A B} (f : A → result B) (g : A → B) (l : list A) :
  Forall (λ x, f x = Ok (g x)) l → mapM (M := result) f l = Ok (map g l).
Proof.
  induction 1 as [|x l Hx Hl IH]; [reflexivity|].
  cbn. rewrite Hx. cbn. rewrite IH. reflexivity.
Qed.

(** ** The corrections keep the shape of the arrays *)

Lemma setitem_row_shape (a a' : list ndarray) (i : nat) (row : ndarray) :
  PyKoala.setitem_row a i row = Ok a' → PyKoala.shape a' = PyKoala.shape a.
Proof.
  unfold PyKoala.setitem_row, getitem, PyKoala.shape.
  destruct (a !! i) as [old|] eqn:E; cbn; [|discriminate].
  assert (∀ new : ndarray, length new = length old →
            map length (<[i := new]> a) = map length a) as Hins.
  { intros new Hn. change (length <$> <[i := new]> a = length <$> a).
    rewrite list_fmap_insert, Hn. apply list_insert_id.
    now rewrite list_lookup_fmap, E. }
  destruct (decide (length row = length old)) as [Hl|Hl].
  - intros [= <-]. now apply Hins.
  - destruct row as [|v [|? ?]]; try discriminate.
    intros [= <-]. apply Hins. now rewrite length_map.
Qed.

Lemma spectral_axis_ok_shape (sc sc' : PyKoala.SpectraContainer) :
  PyKoala.wavelength sc' = PyKoala.wavelength sc →
  PyKoala.shape (PyKoala.rss_intensity sc') = PyKoala.shape (PyKoala.rss_intensity sc) →
  PyKoala.shape (PyKoala.rss_variance sc') = PyKoala.shape (PyKoala.rss_variance sc) →
  PyKoala.spectral_axis_ok sc → PyKoala.spectral_axis_ok sc'.
Proof.
  unfold PyKoala.spectral_axis_ok, PyKoala.shape. intros -> Hi Hv [H1 H2].
  assert (∀ (n : nat) (a : list ndarray),
            Forall (λ row, length row = n) a ↔ Forall (λ k, k = n) (map length a))
    as Hsh.
  { intros n a. change (map length a) with (length <$> a).
    now rewrite Forall_fmap. }
  split; apply Hsh; [rewrite Hi|rewrite Hv]; now apply Hsh.
Qed.

Lemma WavelengthCorrection_apply_shape (self : PyKoala.WavelengthCorrection)
    (rss out : PyKoala.SpectraContainer) :
  PyKoala.WavelengthCorrection.apply self rss = Ok out →
  PyKoala.wavelength out = PyKoala.wavelength rss
  ∧ PyKoala.shape (PyKoala.rss_intensity out) = PyKoala.shape (PyKoala.rss_intensity rss)
  ∧ PyKoala.shape (PyKoala.rss_variance out) = PyKoala.shape (PyKoala.rss_variance rss).
Proof.
  unfold PyKoala.WavelengthCorrection.apply. cbv zeta.
  destruct (for_each _ _ _) as [intensity|e] eqn:E; cbn; [|discriminate].
  intros [= <-]. cbn. split; [reflexivity|]. split; [|reflexivity].
  refine (for_each_invariant
            (λ s, PyKoala.shape s = PyKoala.shape (PyKoala.rss_intensity rss))
            _ _ _ _ _ eq_refl E).
  intros s i s' Hs.
  destruct (PyKoala.offset self) as [o|]; cbn; [|discriminate].
  destruct (PyKoala.offset_data o) as [d|]; cbn; [|discriminate].
  destruct (getitem d i); cbn; [|discriminate].
  destruct (getitem (PyKoala.rss_intensity rss) i); cbn; [|discriminate].
  destruct (flux_conserving_interpolation _ _ _); cbn; [|discriminate].
  intros H. rewrite (setitem_row_shape _ _ _ _ H). exact Hs.
Qed.

Lemma interp_Ok_length (x xp fp out : ndarray) :
  interp x xp fp = Ok out → length out = length x.
Proof.
  unfold interp. repeat (destruct (decide _); try discriminate).
  destruct (finite xp); intros [= <-]; now rewrite length_map.
Qed.

Lemma mapM_broadcast2_shape (f : float → float → float) (b : ndarray)
    (a a' : list ndarray) :
  Forall (λ row, length row = length b) a →
  mapM (M := result) (λ row, broadcast2 f row b) a = Ok a' →
  PyKoala.shape a' = PyKoala.shape a.
Proof.
  intros Ha H. apply mapM_Ok_Forall2 in H. unfold PyKoala.shape.
  induction H as [|row row' a a' Hrow _ IH]; [reflexivity|].
  apply Forall_cons in Ha as [Hl Ha]. cbn. rewrite (IH Ha). f_equal.
  rewrite broadcast2_same_length in Hrow by exact Hl.
  injection Hrow as <-. rewrite length_zip_with. lia.
Qed.

Lemma AtmosphericExtCorrection_apply_shape
    (self : PyKoala.AtmosphericExtCorrection)
    (sc out : PyKoala.SpectraContainer) (airmass : option float) :
  PyKoala.spectral_axis_ok sc →
  PyKoala.AtmosphericExtCorrection.apply self sc airmass = Ok out →
  PyKoala.wavelength out = PyKoala.wavelength sc
  ∧ PyKoala.shape (PyKoala.rss_intensity out) = PyKoala.shape (PyKoala.rss_intensity sc)
  ∧ PyKoala.shape (PyKoala.rss_variance out) = PyKoala.shape (PyKoala.rss_variance sc).
Proof.
  intros [Hi Hv]. unfold PyKoala.AtmosphericExtCorrection.apply. cbv zeta.
  destruct (PyKoala.extinction_correction self) as [curve|]; [|discriminate].
  destruct (match airmass with None => _ | Some a => Some a end) as [a|];
    cbn; [|discriminate].
  unfold PyKoala.AtmosphericExtCorrection.extinction.
  destruct (interp _ _ curve) as [ec|] eqn:Eec; cbn; [|discriminate].
  apply interp_Ok_length in Eec.
  destruct (mapM _ (PyKoala.rss_intensity sc)) as [intensity|] eqn:EI; cbn;
    [|discriminate].
  destruct (mapM _ (PyKoala.rss_variance sc)) as [variance|] eqn:EV; cbn;
    [|discriminate].
  intros [= <-]. cbn. split; [reflexivity|]. split.
  - eapply mapM_broadcast2_shape; [|exact EI].
    eapply Forall_impl; [exact Hi|]. intros row Hr. simpl in Hr.
    rewrite length_map. congruence.
  - eapply mapM_broadcast2_shape; [|exact EV].
    eapply Forall_impl; [exact Hv|]. intros row Hr. simpl in Hr.
    rewrite !length_map. congruence.
Qed.

Lemma FluxCalibration_apply_shape (response : ndarray)
    (dc : FluxCalibration.DataContainer) (units : string) :
  FluxCalibration.wavelength (FluxCalibration.apply response dc units).2
  = FluxCalibration.wavelength dc
  ∧ map length (FluxCalibration.intensity_corrected
                  (FluxCalibration.apply response dc units).2)
    = map length (FluxCalibration.intensity_corrected dc)
  ∧ map length (FluxCalibration.variance_corrected
                  (FluxCalibration.apply response dc units).2)
    = map length (FluxCalibration.variance_corrected dc).
Proof.
  unfold FluxCalibration.apply.
  destruct (FluxCalibration.is_corrected dc FluxCalibration.name); [done|].
  destruct (FluxCalibration.idiv_axis0 _ response) as [i|e] eqn:Ei; [|done].
  apply idiv_axis0_shape in Ei. cbn.
  destruct (FluxCalibration.idiv_axis0 _ (map fsqr response)) as [v|e] eqn:Ev;
    cbn; [|done].
  apply idiv_axis0_shape in Ev. done.
Qed.

(** C6.  Each correction keeps the wavelength array and the shapes of the
    intensity and variance arrays, and so the invariant that the wavelength
    axis is as long as their spectral axis: [WavelengthCorrection.apply]
    and [AtmosphericExtCorrection.apply] in the container that they return
    (the latter on a container that satisfies the invariant), and
    [FluxCalibration.apply] in the container that it updates in place,
    whatever the outcome of the call. *)
Theorem corrections_preserve_spectral_axis :
  (∀ (self : PyKoala.WavelengthCorrection) (rss out : PyKoala.SpectraContainer),
      PyKoala.WavelengthCorrection.apply self rss = Ok out →
      PyKoala.wavelength out = PyKoala.wavelength rss
      ∧ PyKoala.shape (PyKoala.rss_intensity out)
        = PyKoala.shape (PyKoala.rss_intensity rss)
      ∧ PyKoala.shape (PyKoala.rss_variance out)
        = PyKoala.shape (PyKoala.rss_variance rss)
      ∧ (PyKoala.spectral_axis_ok rss → PyKoala.spectral_axis_ok out))
  ∧ (∀ (self : PyKoala.AtmosphericExtCorrection)
       (sc out : PyKoala.SpectraContainer) (airmass : option float),
      PyKoala.spectral_axis_ok sc →
      PyKoala.AtmosphericExtCorrection.apply self sc airmass = Ok out →
      PyKoala.wavelength out = PyKoala.wavelength sc
      ∧ PyKoala.shape (PyKoala.rss_intensity out)
        = PyKoala.shape (PyKoala.rss_intensity sc)
      ∧ PyKoala.shape (PyKoala.rss_variance out)
        = PyKoala.shape (PyKoala.rss_variance sc)
      ∧ PyKoala.spectral_axis_ok out)
  ∧ (∀ (response : ndarray) (dc : FluxCalibration.DataContainer)
       (units : string),
      FluxCalibration.wavelength (FluxCalibration.apply response dc units).2
      = FluxCalibration.wavelength dc
      ∧ map length (FluxCalibration.intensity_corrected
                      (FluxCalibration.apply response dc units).2)
        = map length (FluxCalibration.intensity_corrected dc)
      ∧ map length (FluxCalibration.variance_corrected
                      (FluxCalibration.apply response dc units).2)
        = map length (FluxCalibration.variance_corrected dc)).
Proof.
  split; [|split].
  - intros self rss out H.
    destruct (WavelengthCorrection_apply_shape self rss out H) as (Hw & Hi & Hv).
    split; [exact Hw|]. split; [exact Hi|]. split; [exact Hv|].
    now apply spectral_axis_ok_shape.
  - intros self sc out airmass Hok H.
    destruct (AtmosphericExtCorrection_apply_shape self sc out airmass Hok H)
      as (Hw & Hi & Hv).
    split; [exact Hw|]. split; [exact Hi|]. split; [exact Hv|].
    now apply (spectral_axis_ok_shape sc).
  - apply FluxCalibration_apply_shape.
Qed.

Lemma corrections_preserve_spectral_axis_witness :
  let rss := PyKoala.mkSpectraContainer [Fin 5000; Fin 5001]
               [[Fin 1; Fin 2]] [[Fin 1; Fin 1]] (Some (Fin 1)) [] in
  let wc := PyKoala.mkWavelengthCorrection None
              (Some (PyKoala.mkWavelengthOffset None (Some [Fin (1 / 2)])
                       (Some [NaN]))) in
  let aec := PyKoala.mkAtmosphericExtCorrection
               (Some [Fin 0; Fin 0]) [Fin 4000; Fin 6000] "ssoextinct.dat" in
  (∃ out, PyKoala.WavelengthCorrection.apply wc rss = Ok out
          ∧ PyKoala.wavelength out = PyKoala.wavelength rss
          ∧ PyKoala.shape (PyKoala.rss_intensity out) = [2%nat]
          ∧ PyKoala.shape (PyKoala.rss_variance out) = [2%nat]
          ∧ PyKoala.spectral_axis_ok out)
  ∧ (∃ out, PyKoala.AtmosphericExtCorrection.apply aec rss None = Ok out
            ∧ PyKoala.wavelength out = PyKoala.wavelength rss
            ∧ PyKoala.shape (PyKoala.rss_intensity out) = [2%nat]
            ∧ PyKoala.shape (PyKoala.rss_variance out) = [2%nat]
            ∧ PyKoala.spectral_axis_ok out).
Proof.
  intros rss wc aec.
  destruct corrections_preserve_spectral_axis as (HW & HA & _).
  assert (PyKoala.spectral_axis_ok rss) as Hok
      by (split; repeat constructor).
  split.
  - assert (∃ out, PyKoala.WavelengthCorrection.apply wc rss = Ok out)
      as [out Hout].
    { unfold PyKoala.WavelengthCorrection.apply. cbv zeta.
      cbn [for_each seq length PyKoala.rss_intensity PyKoala.wavelength rss
           PyKoala.offset wc PyKoala.offset_data mbind result_bind getitem
           lookup list_lookup arange map fsub lift2].
      change [Fin (INR 0); Fin (INR 1)] with (map Fin [INR 0; INR 1]).
      change [Fin (INR 0 - 1 / 2); Fin (INR 1 - 1 / 2)]
        with (map Fin [INR 0 - 1 / 2; INR 1 - 1 / 2]).
      change [Fin 1; Fin 2] with (map Fin [1; 2]).
      rewrite flux_conserving_interpolation_Fin;
        [|repeat constructor; simpl; lra|simpl; lia|reflexivity|simpl; lia].
      eexists. reflexivity. }
    exists out. split; [exact Hout|].
    destruct (HW wc rss out Hout) as (Hw & Hi & Hv & Hinv).
    split; [exact Hw|]. split; [exact Hi|]. split; [exact Hv|]. exact (Hinv Hok).
  - assert (∃ out, PyKoala.AtmosphericExtCorrection.apply aec rss None = Ok out)
      as [out Hout] by (eexists; reflexivity).
    exists out. split; [exact Hout|].
    destruct (HA aec rss out None Hok Hout) as (Hw & Hi & Hv & Hinv).
    split; [exact Hw|]. split; [exact Hi|]. split; [exact Hv|]. exact Hinv.
Defined.

(** ** [SolarCrossCorrOffset.compute_shift_from_twilight]: shapes *)

Lemma fit_axis_Ok {A} (n : nat) (a a' : list A) (P : A → Prop) :
  fit_axis n a = Ok a' → Forall P a → length a' = n ∧ Forall P a'.
Proof.
  unfold fit_axis. destruct (decide (length a = n)) as [E|E].
  - intros [= <-] HP. split; assumption.
  - destruct a as [|x [|? ?]]; try discriminate. intros [= <-] HP.
    split; [apply length_replicate|].
    apply Forall_cons in HP as [HP _]. now apply Forall_replicate.
Qed.

Lemma chi2_block_shape (m F : nat) (models weights nrss fw : list ndarray)
    (block : list ndarray) :
  PyKoala.SolarCrossCorrOffset.chi2_block m F models weights nrss fw = Ok block →
  length block = m ∧ Forall (λ cell, length cell = F) block.
Proof.
  unfold PyKoala.SolarCrossCorrOffset.chi2_block.
  destruct (broadcast_axis models weights) as [mw|]; cbn; [|discriminate].
  destruct (broadcast_axis nrss fw) as [nf|]; cbn; [|discriminate].
  destruct (mapM _ mw) as [b1|]; cbn; [|discriminate].
  destruct (mapM (fit_axis F) b1) as [b2|] eqn:E2; cbn; [|discriminate].
  intros H. apply (fit_axis_Ok m b2 block _ H).
  apply mapM_Ok_Forall2 in E2. clear H.
  induction E2 as [|x y l l' Hxy _ IH]; constructor; [|exact IH].
  now apply (fit_axis_Ok F x y (λ _, True) Hxy), Forall_true.
Qed.

(** [all_chi2] has the shape [(n, m, n_fibres)] of its allocation. *)
Lemma all_chi2_shape (n m F : nat) (models_grid weights_grid : list (list ndarray))
    (nrss fw : list ndarray) (chi : list (list ndarray)) :
  PyKoala.SolarCrossCorrOffset.all_chi2 n m F models_grid weights_grid nrss fw
  = Ok chi →
  length chi = n
  ∧ Forall (λ block, length block = m
                     ∧ Forall (λ cell : ndarray, length cell = F) block) chi.
Proof.
  unfold PyKoala.SolarCrossCorrOffset.all_chi2. intros H.
  split; [rewrite (mapM_Ok_length _ _ _ H); apply length_seq|].
  apply mapM_Ok_Forall2 in H.
  induction H as [|i block l l' Hb _ IH]; constructor; [|exact IH].
  destruct (getitem models_grid i); cbn in Hb; [|discriminate].
  destruct (getitem weights_grid i); cbn in Hb; [|discriminate].
  now apply chi2_block_shape in Hb.
Qed.

(** What every successful run has computed. *)
Lemma compute_shift_from_twilight_Ok (self self' : PyKoala.SolarCrossCorrOffset)
    (pix_shift_array pix_std_array : ndarray) (rss_intensity : list ndarray)
    (models_grid weights_grid : list (list ndarray))
    (fibre_weights nrss : list ndarray) (use_mean : bool)
    (res : PyKoala.shift_results) :
  PyKoala.SolarCrossCorrOffset.compute_shift_from_twilight self
    pix_shift_array pix_std_array rss_intensity models_grid weights_grid
    fibre_weights nrss use_mean = Ok (self', res) →
  ∃ data error : ndarray,
    PyKoala.offset_data (PyKoala.solar_offset self') = Some data
    ∧ PyKoala.offset_error (PyKoala.solar_offset self') = Some error
    ∧ length data = length rss_intensity
    ∧ length error = length rss_intensity
    ∧ (0 < length rss_intensity)%nat
    ∧ Forall (λ v, v = NaN) error.
Proof.
  unfold PyKoala.SolarCrossCorrOffset.compute_shift_from_twilight. cbv zeta.
  destruct (PyKoala.SolarCrossCorrOffset.all_chi2 _ _ _ _ _ _ _) as [chi|] eqn:Echi;
    cbn; [|discriminate].
  destruct (PyKoala.SolarCrossCorrOffset.likelihood _ chi) as [lik|] eqn:Elik;
    cbn; [|discriminate].
  destruct (mapM _ (seq 0 (length rss_intensity))) as [idx|] eqn:Eidx;
    cbn; [|discriminate].
  destruct (mapM (getitem pix_std_array) _) as [sigma|] eqn:Es; cbn; [|discriminate].
  destruct (mapM (getitem pix_shift_array) _) as [shift|] eqn:Esh; cbn; [|discriminate].
  intros [= <- <-]. cbn.
  apply mapM_Ok_length in Eidx, Esh. rewrite length_seq in Eidx.
  rewrite length_map, Eidx in Esh.
  eexists _, _. split; [reflexivity|]. split; [reflexivity|].
  split; [destruct use_mean; rewrite !length_map; [apply length_seq|exact Esh]|].
  split; [now rewrite length_map|]. split.
  - destruct (all_chi2_shape _ _ _ _ _ _ _ _ Echi) as [_ Hshape].
    unfold PyKoala.SolarCrossCorrOffset.likelihood in Elik.
    destruct (concat (concat chi)) eqn:Ec; [discriminate|].
    destruct (decide (length rss_intensity = 0%nat)) as [E0|]; [|lia].
    exfalso. rewrite E0 in Hshape.
    assert (concat (concat chi) = []) as Hnil; [|congruence].
    clear -Hshape. induction Hshape as [|block a [_ Hb] _ IH]; [reflexivity|].
    cbn. rewrite concat_app, IH, app_nil_r.
    clear -Hb. induction Hb as [|cell b Hc _ IH]; [reflexivity|].
    cbn. rewrite IH. apply nil_length_inv in Hc. now rewrite Hc.
  - rewrite Forall_fmap. now apply Forall_true.
Qed.

(** C8.  When [compute_shift_from_twilight] returns, the stored offset
    holds two arrays of the same shape, [offset_data] and [offset_error],
    with one entry for each fibre of the container. *)
Theorem compute_shift_from_twilight_paired_arrays
    (self self' : PyKoala.SolarCrossCorrOffset)
    (pix_shift_array pix_std_array : ndarray) (rss_intensity : list ndarray)
    (models_grid weights_grid : list (list ndarray))
    (fibre_weights nrss : list ndarray) (use_mean : bool)
    (res : PyKoala.shift_results) :
  PyKoala.SolarCrossCorrOffset.compute_shift_from_twilight self
    pix_shift_array pix_std_array rss_intensity models_grid weights_grid
    fibre_weights nrss use_mean = Ok (self', res) →
  ∃ data error : ndarray,
    PyKoala.offset_data (PyKoala.solar_offset self') = Some data
    ∧ PyKoala.offset_error (PyKoala.solar_offset self') = Some error
    ∧ length data = length rss_intensity
    ∧ length error = length rss_intensity.
Proof.
  intros H.
  destruct (compute_shift_from_twilight_Ok _ _ _ _ _ _ _ _ _ _ _ H)
    as (data & error & Hd & He & Hld & Hle & _).
  now exists data, error.
Qed.


(** ** The likelihood of a NaN-free [all_chi2] *)

Lemma has_grid_shape_Fin3 (m F : nat) (c : list (list (list R))) :
  has_grid_shape m F (Fin3 c) ↔ has_grid_shape m F c.
Proof.
  unfold has_grid_shape. rewrite List.Forall_map.
  apply Forall_proper; [|reflexivity]. intros block.
  rewrite length_map, List.Forall_map.
  apply and_iff_compat_l, Forall_proper; [|reflexivity].
  intros cell. now rewrite length_map.
Qed.

Lemma concat_map_Fin (l : list (list R)) :
  concat (map (map Fin) l) = map Fin (concat l).
Proof.
  induction l as [|x l IH]; [reflexivity|]. cbn. now rewrite IH, map_app.
Qed.

Lemma concat_concat_Fin3 (c : list (list (list R))) :
  concat (concat (Fin3 c)) = map Fin (concat (concat c)).
Proof.
  rewrite <- concat_map_Fin. f_equal.
  induction c as [|b c IH]; [reflexivity|]. cbn. now rewrite IH, map_app.
Qed.

Lemma foldl_fmin_Fin (v : R) (l : list R) :
  foldl fmin (Fin v) (map Fin l) = Fin (foldl Rmin v l).
Proof. revert v. induction l as [|x l IH]; intros v; [reflexivity|]. cbn. apply IH. Qed.

Lemma amin_Fin (l : list R) :
  l ≠ [] → amin (map Fin l) = Ok (Fin (minR l)).
Proof. destruct l as [|v l]; [done|]. intros _. cbn. now rewrite foldl_fmin_Fin. Qed.

Lemma foldl_Rmin_le (v : R) (l : list R) :
  foldl Rmin v l <= v ∧ Forall (λ x, foldl Rmin v l <= x) l.
Proof.
  revert v. induction l as [|x l IH]; intros v; cbn; [split; [lra|constructor]|].
  destruct (IH (Rmin v x)) as [H1 H2].
  pose proof (Rmin_l v x). pose proof (Rmin_r v x).
  split; [lra|]. constructor; [lra|exact H2].
Qed.

Lemma foldl_Rmin_elem_of (v : R) (l : list R) : foldl Rmin v l ∈ v :: l.
Proof.
  revert v. induction l as [|x l IH]; intros v; cbn; [left|].
  specialize (IH (Rmin v x)). apply elem_of_cons in IH as [IH|IH].
  - rewrite IH. unfold Rmin. destruct (Rle_dec v x); [left|right; left].
  - right; right. exact IH.
Qed.

(** [minR] is the least entry. *)
Lemma minR_least (l : list R) :
  l ≠ [] → minR l ∈ l ∧ ∀ x, x ∈ l → minR l <= x.
Proof.
  destruct l as [|v l]; [done|]. intros _. cbn.
  split; [apply foldl_Rmin_elem_of|].
  destruct (foldl_Rmin_le v l) as [H1 H2]. rewrite Forall_forall in H2.
  intros x [->|Hx]%elem_of_cons; [exact H1|now apply H2].
Qed.

Lemma grid_column_Fin3 (m F f : nat) (c : list (list (list R))) :
  has_grid_shape m F c → (f < F)%nat →
  PyKoala.SolarCrossCorrOffset.grid_column (Fin3 c) f = map Fin (colR c f).
Proof.
  intros Hc Hf. unfold PyKoala.SolarCrossCorrOffset.grid_column, colR.
  rewrite <- concat_map_Fin. f_equal. rewrite !map_map.
  apply map_ext_Forall. eapply Forall_impl; [exact Hc|].
  intros block [_ Hb]. rewrite !map_map.
  apply map_ext_Forall. eapply Forall_impl; [exact Hb|].
  intros cell Hl. simpl in Hl.
  rewrite list_lookup_total_alt, nth_lookup.
  change (map Fin cell) with (Fin <$> cell). rewrite list_lookup_fmap.
  destruct (cell !! f) eqn:E; [reflexivity|].
  apply lookup_ge_None in E. lia.
Qed.

Lemma map3_Fin (g : float → float) (h : R → R) (c : list (list (list R))) :
  (∀ x, g (Fin x) = Fin (h x)) →
  map (map (map g)) (Fin3 c) = Fin3 (map (map (map h)) c).
Proof.
  intros Hg. rewrite !map_map. apply map_ext. intros block.
  rewrite !map_map. apply map_ext. intros cell.
  rewrite !map_map. apply map_ext. exact Hg.
Qed.

Lemma has_grid_shape_weightsR (m F : nat) (c : list (list (list R))) :
  has_grid_shape m F c → has_grid_shape m F (weightsR c).
Proof.
  unfold has_grid_shape, weightsR. rewrite List.Forall_map.
  intros H. eapply Forall_impl; [exact H|]. intros block [Hm Hb].
  rewrite length_map, List.Forall_map. split; [exact Hm|].
  eapply Forall_impl; [exact Hb|]. intros cell Hc. simpl. now rewrite length_map.
Qed.

Lemma length_colR (m F f : nat) (c : list (list (list R))) :
  has_grid_shape m F c → length (colR c f) = (length c * m)%nat.
Proof.
  unfold colR. induction 1 as [|block c [Hm _] _ IH]; [reflexivity|].
  cbn. rewrite length_app, length_map, IH. lia.
Qed.

Lemma nth_map_lt {A} (g : A → R) (l : list A) (d : A) (f : nat) :
  (f < length l)%nat → nth f (map g l) 0 = g (nth f l d).
Proof.
  intros Hf. rewrite (nth_indep _ 0 (g d)) by (now rewrite length_map).
  apply map_nth.
Qed.

Lemma colR_map3 (m F f : nat) (h : R → R) (c : list (list (list R))) :
  has_grid_shape m F c → (f < F)%nat →
  colR (map (map (map h)) c) f = map h (colR c f).
Proof.
  intros Hc Hf. unfold colR. rewrite concat_map. f_equal.
  rewrite !map_map. apply map_ext_Forall. eapply Forall_impl; [exact Hc|].
  intros block [_ Hb]. rewrite !map_map.
  apply map_ext_Forall. eapply Forall_impl; [exact Hb|].
  intros cell Hl. simpl in Hl. apply (nth_map_lt h cell 0). lia.
Qed.

Lemma sumR_pos (l : list R) : Forall (λ x, 0 < x) l → l ≠ [] → 0 < sumR l.
Proof.
  induction 1 as [|x l Hx Hl IH]; [done|]. intros _. cbn.
  destruct l as [|y l]; [simpl; lra|].
  assert (0 < sumR (y :: l)) by (now apply IH). unfold sumR in *. lra.
Qed.

Lemma normR_pos (m F f : nat) (c : list (list (list R))) :
  has_grid_shape m F c → c ≠ [] → (0 < m)%nat → (f < F)%nat →
  0 < sumR (colR (weightsR c) f).
Proof.
  intros Hc Hne Hm Hf. apply sumR_pos.
  - unfold weightsR. rewrite (colR_map3 m F f _ c Hc Hf), List.Forall_map.
    apply Forall_true. intros x. apply exp_pos.
  - intros E. apply (f_equal length) in E.
    rewrite (length_colR m F f _ (has_grid_shape_weightsR m F c Hc)) in E.
    unfold weightsR in E. rewrite length_map in E. simpl in E.
    destruct c; [done|]. simpl in E. lia.
Qed.

Lemma normR_nonzero (m F : nat) (c : list (list (list R))) :
  has_grid_shape m F c → c ≠ [] → (0 < m)%nat →
  Forall (λ d, d ≠ 0) (normR F c).
Proof.
  intros Hc Hne Hm. unfold normR. rewrite List.Forall_map, Forall_forall.
  intros f Hf%elem_of_seq.
  pose proof (normR_pos m F f c Hc Hne Hm ltac:(lia)). lra.
Qed.

Lemma concat_concat_nonempty {A} (m F : nat) (c : list (list (list A))) :
  has_grid_shape m F c → c ≠ [] → (0 < m)%nat → (0 < F)%nat →
  concat (concat c) ≠ [].
Proof.
  intros Hc Hne Hm HF. destruct c as [|block c]; [done|].
  apply Forall_cons in Hc as [[Hlm Hb] _].
  destruct block as [|cell block]; [simpl in Hlm; lia|].
  apply Forall_cons in Hb as [Hl _].
  destruct cell; [simpl in Hl; lia|]. discriminate.
Qed.

(** On a NaN-free [all_chi2] with a non-empty grid and at least one fibre,
    the likelihood is computed without exception, is NaN-free, and is the
    real array [likelihoodR]. *)
Lemma likelihood_Fin3 (m F : nat) (c : list (list (list R))) :
  has_grid_shape m F c → c ≠ [] → (0 < m)%nat → (0 < F)%nat →
  PyKoala.SolarCrossCorrOffset.likelihood F (Fin3 c)
  = Ok (Fin3 (likelihoodR F c)).
Proof.
  intros Hc Hne Hm HF. unfold PyKoala.SolarCrossCorrOffset.likelihood.
  rewrite concat_concat_Fin3.
  rewrite amin_Fin by (now apply (concat_concat_nonempty m F)).
  cbn [mbind result_bind]. cbv zeta.
  rewrite (map3_Fin _ (λ x, exp (- (x - minR (concat (concat c))) / 2)))
    by reflexivity.
  fold (weightsR c).
  assert (map (λ f, nansum (PyKoala.SolarCrossCorrOffset.grid_column
                             (Fin3 (weightsR c)) f)) (seq 0 F)
          = map Fin (normR F c)) as ->.
  { unfold normR. rewrite map_map. apply map_ext_in. intros f Hf.
    apply in_seq in Hf.
    rewrite (grid_column_Fin3 m F f)
      by (try apply has_grid_shape_weightsR; try assumption; lia).
    apply nansum_Fin. }
  f_equal. unfold likelihoodR. rewrite !map_map. apply map_ext. intros block.
  rewrite !map_map. apply map_ext. intros cell.
  apply zip_with_fdiv_Fin. now apply (normR_nonzero m F).
Qed.

Lemma sumR_map_div (l : list R) (d : R) :
  sumR (map (λ x, x / d) l) = sumR l / d.
Proof.
  induction l as [|x l IH]; cbn; [lra|]. fold (sumR (map (λ x, x / d) l)).
  fold (sumR l). rewrite IH. lra.
Qed.

Lemma nth_normR (F f : nat) (c : list (list (list R))) :
  (f < F)%nat → nth f (normR F c) 0 = sumR (colR (weightsR c) f).
Proof.
  intros Hf. unfold normR.
  rewrite (nth_map_lt _ (seq 0 F) 0%nat) by (now rewrite length_seq).
  now rewrite seq_nth.
Qed.

Lemma colR_likelihoodR (m F f : nat) (c : list (list (list R))) :
  has_grid_shape m F c → (f < F)%nat →
  colR (likelihoodR F c) f
  = map (λ x, x / sumR (colR (weightsR c) f)) (colR (weightsR c) f).
Proof.
  intros Hc Hf. unfold likelihoodR, colR at 1 3.
  rewrite concat_map. f_equal. rewrite !map_map.
  apply map_ext_Forall.
  eapply Forall_impl; [exact (has_grid_shape_weightsR m F c Hc)|].
  intros block [_ Hb]. rewrite !map_map.
  apply map_ext_Forall. eapply Forall_impl; [exact Hb|].
  intros cell Hl. simpl in Hl.
  rewrite <- (nth_normR F f c Hf).
  rewrite !nth_lookup, lookup_zip_with.
  destruct (cell !! f) as [x|] eqn:Ex; [|apply lookup_ge_None in Ex; lia].
  destruct (normR F c !! f) as [d|] eqn:Ed; [reflexivity|].
  apply lookup_ge_None in Ed. unfold normR in Ed.
  rewrite length_map, length_seq in Ed. lia.
Qed.

(** For each fibre the normalised likelihood adds up to one over the grid. *)
Lemma likelihoodR_normalised (m F f : nat) (c : list (list (list R))) :
  has_grid_shape m F c → c ≠ [] → (0 < m)%nat → (f < F)%nat →
  sumR (colR (likelihoodR F c) f) = 1.
Proof.
  intros Hc Hne Hm Hf. rewrite (colR_likelihoodR m F f c Hc Hf), sumR_map_div.
  pose proof (normR_pos m F f c Hc Hne Hm Hf). field. lra.
Qed.

(** Each entry of the likelihood is the exponential of minus half the
    excess of its chi2 over the least chi2, divided by the sum of these
    exponentials over the grid of its fibre. *)
Lemma at3_likelihoodR (m F i j f : nat) (c : list (list (list R))) (x : R) :
  has_grid_shape m F c → at3 c i j f = Some x →
  at3 (likelihoodR F c) i j f
  = Some (exp (- (x - minR (concat (concat c))) / 2)
          / sumR (colR (weightsR c) f)).
Proof.
  intros Hc. unfold at3, likelihoodR, weightsR.
  rewrite !list_lookup_fmap.
  destruct (c !! i) as [block|] eqn:Eb; [|discriminate]. cbn.
  rewrite !list_lookup_fmap.
  destruct (block !! j) as [cell|] eqn:Ec; [|discriminate]. cbn.
  intros Hx. rewrite lookup_zip_with, list_lookup_fmap, Hx. cbn.
  assert (f < F)%nat as Hf.
  { unfold has_grid_shape in Hc. rewrite Forall_forall in Hc.
    destruct (Hc block) as [_ Hb]; [eapply list_elem_of_lookup_2; exact Eb|].
    rewrite Forall_forall in Hb.
    rewrite <- (Hb cell) by (eapply list_elem_of_lookup_2; exact Ec).
    eapply lookup_lt_Some; exact Hx. }
  fold (weightsR c). rewrite <- (nth_normR F f c Hf), nth_lookup.
  destruct (normR F c !! f) as [d|] eqn:Ed; [reflexivity|].
  apply lookup_ge_None in Ed. unfold normR in Ed.
  rewrite length_map, length_seq in Ed. lia.
Qed.

Lemma has_grid_shape_likelihoodR (m F : nat) (c : list (list (list R))) :
  has_grid_shape m F c → has_grid_shape m F (likelihoodR F c).
Proof.
  intros Hc. apply has_grid_shape_weightsR in Hc.
  unfold has_grid_shape, likelihoodR in *. rewrite List.Forall_map.
  eapply Forall_impl; [exact Hc|]. intros block [Hm Hb].
  rewrite length_map, List.Forall_map. split; [exact Hm|].
  eapply Forall_impl; [exact Hb|]. intros cell Hl. simpl in *.
  rewrite length_zip_with. unfold normR. rewrite length_map, length_seq. lia.
Qed.

(** ** Likelihood-weighted means *)

Lemma sum_column_Fin (F f : nat) (block : list (list R)) :
  Forall (λ cell, length cell = F) block → (f < F)%nat →
  sum (map (λ cell : ndarray, cell !!! f) (map (map Fin) block))
  = Fin (sumR (map (λ cell, nth f cell 0) block)).
Proof.
  intros Hb Hf. rewrite <- sum_Fin. f_equal. rewrite !map_map.
  apply map_ext_Forall. eapply Forall_impl; [exact Hb|].
  intros cell Hl. simpl in Hl.
  rewrite list_lookup_total_alt, nth_lookup.
  change (map Fin cell) with (Fin <$> cell). rewrite list_lookup_fmap.
  destruct (cell !! f) eqn:E; [reflexivity|].
  apply lookup_ge_None in E. lia.
Qed.

Lemma mean_pix_shift_Fin (m F f : nat) (L : list (list (list R)))
    (shift : list R) :
  has_grid_shape m F L → (f < F)%nat →
  sum (zip_with
         (λ (row : list ndarray) (s : float),
            fmul (sum (map (λ cell : ndarray, cell !!! f) row)) s)
         (Fin3 L) (map Fin shift))
  = Fin (sumR (zip_with
                 (λ block s, sumR (map (λ cell, nth f cell 0) block) * s)
                 L shift)).
Proof.
  intros HL Hf. rewrite <- sum_Fin. f_equal. revert shift.
  induction HL as [|block L [_ Hb] _ IH]; intros [|s shift]; try reflexivity.
  cbn [map zip_with]. rewrite IH. f_equal.
  now rewrite (sum_column_Fin F f block Hb Hf).
Qed.

(** ** [np.argmax] on an array without NaN *)

Lemma argmax_from_Fin (pre l : list R) (bi : nat) (b : R) :
  pre !! bi = Some b → Forall (λ x, x <= b) pre →
  ∃ best : R,
    (pre ++ l) !! argmax_from bi (Fin b) (length pre) (map Fin l) = Some best
    ∧ Forall (λ x, x <= best) (pre ++ l).
Proof.
  revert pre bi b. induction l as [|x l IH]; intros pre bi b Hb Hpre.
  - exists b. rewrite app_nil_r. split; [exact Hb|exact Hpre].
  - cbn [map argmax_from replaces_max].
    replace (pre ++ x :: l) with ((pre ++ [x]) ++ l) by (now rewrite <- app_assoc).
    replace (S (length pre)) with (length (pre ++ [x]))
      by (rewrite length_app; simpl; lia).
    destruct (bool_decide (b < x)) eqn:E.
    + apply bool_decide_eq_true in E. apply IH.
      * rewrite lookup_app_r by lia. now rewrite Nat.sub_diag.
      * apply Forall_app. split; [|apply Forall_singleton; lra].
        eapply Forall_impl; [exact Hpre|]. intros y Hy. simpl in Hy. lra.
    + apply bool_decide_eq_false in E. apply IH.
      * rewrite lookup_app_l; [exact Hb|]. eapply lookup_lt_Some; exact Hb.
      * apply Forall_app. split; [exact Hpre|]. apply Forall_singleton. lra.
Qed.

Lemma argmax_Fin (l : list R) :
  l ≠ [] →
  argmax (map Fin l) = Ok (argmax_index (map Fin l))
  ∧ ∃ best : R, l !! argmax_index (map Fin l) = Some best
                ∧ Forall (λ x, x <= best) l.
Proof.
  destruct l as [|v l]; [done|]. intros _. split; [reflexivity|].
  cbn [map argmax_index].
  apply (argmax_from_Fin [v] l 0 v); [reflexivity|apply Forall_singleton; lra].
Qed.

(** ** The grid index of a flattened position *)

Lemma lookup_concat_uniform {A} (m k : nat) (ll : list (list A)) :
  Forall (λ row, length row = m) ll → (0 < m)%nat →
  concat ll !! k = (row ← ll !! (k / m)%nat; row !! (k mod m)%nat).
Proof.
  intros Hll Hm. revert k. induction Hll as [|row ll Hrow _ IH]; intros k.
  - reflexivity.
  - cbn [concat]. destruct (decide (k < m)%nat) as [Hk|Hk].
    + rewrite lookup_app_l by lia.
      rewrite Nat.div_small, Nat.mod_small by lia. reflexivity.
    + rewrite lookup_app_r by lia. rewrite Hrow, IH.
      assert (k / m = S ((k - m) / m))%nat as ->.
      { replace k with (1 * m + (k - m))%nat at 1 by lia.
        rewrite Nat.div_add_l by lia. reflexivity. }
      assert (k mod m = (k - m) mod m)%nat as ->.
      { replace k with ((k - m) + 1 * m)%nat at 1 by lia.
        apply Nat.Div0.mod_add. }
      reflexivity.
Qed.

Lemma colR_lookup (m F f k : nat) (L : list (list (list R))) :
  has_grid_shape m F L → (0 < m)%nat → (f < F)%nat →
  colR L f !! k = at3 L (k / m) (k mod m) f.
Proof.
  intros HL Hm Hf. unfold colR, at3.
  rewrite (lookup_concat_uniform m).
  - rewrite list_lookup_fmap.
    destruct (L !! (k / m)%nat) as [block|] eqn:Eb; [|reflexivity]. cbn.
    rewrite list_lookup_fmap.
    destruct (block !! (k mod m)%nat) as [cell|] eqn:Ec; [|reflexivity]. cbn.
    rewrite nth_lookup.
    destruct (cell !! f) eqn:E; [reflexivity|].
    apply lookup_ge_None in E.
    unfold has_grid_shape in HL. rewrite Forall_forall in HL.
    destruct (HL block) as [_ Hb]; [eapply list_elem_of_lookup_2; exact Eb|].
    rewrite Forall_forall in Hb.
    rewrite (Hb cell) in E by (eapply list_elem_of_lookup_2; exact Ec). lia.
  - rewrite List.Forall_map. eapply Forall_impl; [exact HL|].
    intros block [Hl _]. now rewrite length_map.
  - exact Hm.
Qed.

Lemma at3_elem_of_colR (m F i j f : nat) (L : list (list (list R))) (x : R) :
  at3 L i j f = Some x → x ∈ colR L f.
Proof.
  unfold at3, colR.
  destruct (L !! i) as [block|] eqn:Eb; [|discriminate]. cbn.
  destruct (block !! j) as [cell|] eqn:Ec; [|discriminate]. cbn. intros Hx.
  apply list_elem_of_In, in_concat.
  exists (map (λ cell, nth f cell 0) block). split.
  - apply in_map_iff. exists block. split; [reflexivity|].
    apply list_elem_of_In. eapply list_elem_of_lookup_2; exact Eb.
  - apply in_map_iff. exists cell. split.
    + now rewrite nth_lookup, Hx.
    + apply list_elem_of_In. eapply list_elem_of_lookup_2; exact Ec.
Qed.

Lemma mapM_getitem {A} `{Inhabited A} (l : list A) (ks : list nat) :
  Forall (λ k, (k < length l)%nat) ks →
  mapM (M := result) (getitem l) ks = Ok (map (λ k, l !!! k) ks).
Proof.
  intros Hks. apply mapM_Ok_intro. eapply Forall_impl; [exact Hks|].
  intros k Hk. simpl in Hk. unfold getitem.
  rewrite list_lookup_total_alt.
  destruct (l !! k) eqn:E; [reflexivity|]. apply lookup_ge_None in E. lia.
Qed.

(** ** [compute_shift_from_twilight]: the likelihood-weighted offset *)

Section offset.
Import PyKoala.

(** The likelihood weighting of [compute_shift_from_twilight], in full. *)
Lemma compute_shift_from_twilight_exact
    (self : SolarCrossCorrOffset) (shift : list R)
    (pix_std_array : ndarray) (rss_intensity : list ndarray)
    (models_grid weights_grid : list (list ndarray))
    (fibre_weights nrss : list ndarray) (use_mean : bool)
    (c : list (list (list R))) :
  shift ≠ [] → pix_std_array ≠ [] → rss_intensity ≠ [] →
  SolarCrossCorrOffset.all_chi2
    (length (map Fin shift)) (length pix_std_array) (length rss_intensity)
    models_grid weights_grid nrss fibre_weights = Ok (Fin3 c) →
  ∃ (self' : SolarCrossCorrOffset) (res : shift_results)
    (L : list (list (list R))) (data : list R),
    SolarCrossCorrOffset.compute_shift_from_twilight self
      (map Fin shift) pix_std_array rss_intensity models_grid weights_grid
      fibre_weights nrss use_mean = Ok (self', res)
    ∧ SolarCrossCorrOffset.likelihood (length rss_intensity) (Fin3 c)
      = Ok (Fin3 L)
    ∧ (minR (concat (concat c)) ∈ concat (concat c)
       ∧ ∀ x, x ∈ concat (concat c) → minR (concat (concat c)) <= x)
    ∧ (∀ (i j f : nat) (x : R),
          at3 c i j f = Some x →
          at3 L i j f
          = Some (exp (- (x - minR (concat (concat c))) / 2)
                  / sumR (map (λ y, exp (- (y - minR (concat (concat c))) / 2))
                            (colR c f))))
    ∧ (∀ f, (f < length rss_intensity)%nat → sumR (colR L f) = 1)
    ∧ offset_data (solar_offset self') = Some (map Fin data)
    ∧ length data = length rss_intensity
    ∧ (use_mean = true →
       ∀ f, (f < length rss_intensity)%nat →
         data !! f
         = Some (- sumR (zip_with
                           (λ block s,
                              sumR (map (λ cell, nth f cell 0) block) * s)
                           L shift)))
    ∧ (use_mean = false →
       ∀ f, (f < length rss_intensity)%nat →
         ∃ (i j : nat) (s best : R),
           shift !! i = Some s
           ∧ data !! f = Some (- s)
           ∧ at3 L i j f = Some best
           ∧ ∀ (i' j' : nat) (x : R), at3 L i' j' f = Some x → x <= best).
Proof.
  intros Hs Hstd Hrss Hchi.
  set (m := length pix_std_array) in *. set (F := length rss_intensity) in *.
  destruct (all_chi2_shape _ _ _ _ _ _ _ _ Hchi) as [Hn Hshape].
  apply (has_grid_shape_Fin3 m F c) in Hshape.
  rewrite !length_map in Hn.
  assert (0 < length shift)%nat as Hn0 by (destruct shift; [done|simpl; lia]).
  assert (0 < m)%nat as Hm by (subst m; destruct pix_std_array; [done|simpl; lia]).
  assert (0 < F)%nat as HF by (subst F; destruct rss_intensity; [done|simpl; lia]).
  assert (c ≠ []) as Hc by (intros ->; simpl in Hn; lia).
  set (L := likelihoodR F c).
  pose proof (has_grid_shape_likelihoodR m F c Hshape) as HL. fold L in HL.
  assert (length L = length shift) as HnL
      by (subst L; unfold likelihoodR, weightsR; now rewrite !length_map).
  pose proof (likelihood_Fin3 m F c Hshape Hc Hm HF) as Hlik. fold L in Hlik.
  set (idx := map (λ f, argmax_index (map Fin (colR L f))) (seq 0 F)).
  assert (∀ f, (f < F)%nat → colR L f ≠ []) as Hcol.
  { intros f Hf E. apply (f_equal length) in E.
    rewrite (length_colR m F f L HL) in E. simpl in E. nia. }
  assert (∀ f k, idx !! f = Some k →
            (f < F)%nat ∧ ∃ best, colR L f !! k = Some best
                                  ∧ Forall (λ x, x <= best) (colR L f)) as Hidx.
  { intros f k Hk. subst idx. rewrite list_lookup_fmap in Hk.
    destruct (seq 0 F !! f) as [f'|] eqn:Ef; [|discriminate].
    apply lookup_seq in Ef as [-> Hf]. simpl in Hk. injection Hk as <-.
    split; [exact Hf|]. apply argmax_Fin. now apply Hcol. }
  assert (Forall (λ k, (k < length shift * m)%nat) idx) as Hbound.
  { rewrite Forall_lookup. intros f k Hk.
    destruct (Hidx f k Hk) as (Hf & best & Hb & _).
    apply lookup_lt_Some in Hb. rewrite (length_colR m F f L HL) in Hb. lia. }
  unfold SolarCrossCorrOffset.compute_shift_from_twilight. cbv zeta.
  fold m F. rewrite Hchi. cbn [mbind result_bind]. rewrite Hlik.
  cbn [mbind result_bind].
  assert (mapM (M := result)
            (λ f, argmax (SolarCrossCorrOffset.grid_column (Fin3 L) f))
            (seq 0 F) = Ok idx) as ->.
  { apply mapM_Ok_intro. rewrite Forall_forall. intros f Hf%elem_of_seq.
    rewrite (grid_column_Fin3 m F f L HL) by lia.
    apply argmax_Fin. apply Hcol. lia. }
  cbn [mbind result_bind].
  rewrite (mapM_getitem pix_std_array).
  2:{ rewrite List.Forall_map. apply Forall_true. intros k.
      apply Nat.mod_upper_bound. lia. }
  cbn [mbind result_bind].
  rewrite (mapM_getitem (map Fin shift)).
  2:{ rewrite List.Forall_map. eapply Forall_impl; [exact Hbound|].
      intros k Hk. simpl in Hk. rewrite length_map.
      apply Nat.Div0.div_lt_upper_bound. lia. }
  cbn [mbind result_bind].
  set (data := if use_mean
               then map (λ f, - sumR (zip_with
                                        (λ block s,
                                           sumR (map (λ cell, nth f cell 0) block) * s)
                                        L shift)) (seq 0 F)
               else map (λ k, - nth (k / m) shift 0) idx).
  eexists _, _, L, data. split; [reflexivity|]. split; [reflexivity|].
  split; [apply minR_least; now apply (concat_concat_nonempty m F)|].
  split.
  { intros i j f x Hx.
    assert (f < F)%nat as Hf.
    { unfold at3 in Hx.
      destruct (c !! i) as [block|] eqn:Eb; [|discriminate]. cbn in Hx.
      destruct (block !! j) as [cell|] eqn:Ec; [|discriminate]. cbn in Hx.
      unfold has_grid_shape in Hshape. rewrite Forall_forall in Hshape.
      destruct (Hshape block) as [_ Hb]; [eapply list_elem_of_lookup_2; exact Eb|].
      rewrite Forall_forall in Hb.
      rewrite <- (Hb cell) by (eapply list_elem_of_lookup_2; exact Ec).
      eapply lookup_lt_Some; exact Hx. }
    rewrite <- (colR_map3 m F f _ c Hshape Hf). fold (weightsR c).
    now apply (at3_likelihoodR m F). }
  split; [intros f Hf; now apply (likelihoodR_normalised m F)|].
  split.
  { cbn. f_equal. subst data. destruct use_mean.
    - rewrite !map_map. apply map_ext_in. intros f Hf%in_seq.
      rewrite (mean_pix_shift_Fin m F f L shift HL) by lia. reflexivity.
    - rewrite !map_map. apply map_ext_Forall.
      eapply Forall_impl; [exact Hbound|]. intros k Hk. simpl in Hk.
      rewrite list_lookup_total_alt.
      change (map Fin shift) with (Fin <$> shift). rewrite list_lookup_fmap.
      rewrite nth_lookup.
      destruct (shift !! (k / m)%nat) eqn:E; [reflexivity|].
      apply lookup_ge_None in E.
      assert (k / m < length shift)%nat
        by (apply Nat.Div0.div_lt_upper_bound; lia). lia. }
  split; [subst data idx; destruct use_mean; rewrite !length_map; apply length_seq|].
  split.
  - intros -> f Hf. subst data. cbn. rewrite list_lookup_fmap.
    now rewrite lookup_seq_lt.
  - intros -> f Hf. subst data. cbn.
    destruct (idx !! f) as [k|] eqn:Ek.
    2:{ apply lookup_ge_None in Ek. subst idx.
        rewrite length_map, length_seq in Ek. lia. }
    destruct (Hidx f k Ek) as (_ & best & Hb & Hmax).
    rewrite Forall_lookup in Hbound. specialize (Hbound f k Ek).
    assert (k / m < length shift)%nat as Hi
      by (apply Nat.Div0.div_lt_upper_bound; lia).
    destruct (shift !! (k / m)%nat) as [s|] eqn:Es;
      [|apply lookup_ge_None in Es; lia].
    exists (k / m)%nat, (k mod m)%nat, s, best.
    split; [exact Es|]. split.
    + rewrite list_lookup_fmap, Ek. cbn. now rewrite nth_lookup, Es.
    + split; [now rewrite <- (colR_lookup m F f k L HL Hm Hf)|].
      intros i' j' x Hx. rewrite Forall_forall in Hmax. apply Hmax.
      now apply (at3_elem_of_colR m F i' j' f L x).
Qed.


End offset.

(** *** A run on a grid of two shifts, one line width and one fibre *)

Lemma all_chi2_example :
  PyKoala.SolarCrossCorrOffset.all_chi2
    (length (map Fin [0; 1])) (length [Fin 1]) (length [[Fin 1]])
    [[[Fin 1]]; [[Fin 2]]] [[[Fin 1]]; [[Fin 1]]] [[Fin 1]] [[Fin 1]]
  = Ok (Fin3 [[[((1 - 1) * (1 - 1) * 1 * 1 + 0) / (1 * 1 + 0)]];
              [[((2 - 1) * (2 - 1) * 1 * 1 + 0) / (1 * 1 + 0)]]]).
Proof.
  unfold PyKoala.SolarCrossCorrOffset.all_chi2,
    PyKoala.SolarCrossCorrOffset.chi2_block, PyKoala.SolarCrossCorrOffset.chi2.
  simpl. rewrite !decide_False by lra. reflexivity.
Qed.


Lemma compute_shift_from_twilight_example (use_mean : bool) :
  ∃ (self' : PyKoala.SolarCrossCorrOffset) (res : PyKoala.shift_results),
    PyKoala.SolarCrossCorrOffset.compute_shift_from_twilight
      (PyKoala.mkSolarCrossCorrOffset [] []
         (PyKoala.mkWavelengthOffset None None None))
      (map Fin [0; 1]) [Fin 1] [[Fin 1]]
      [[[Fin 1]]; [[Fin 2]]] [[[Fin 1]]; [[Fin 1]]] [[Fin 1]] [[Fin 1]]
      use_mean
    = Ok (self', res).
Proof.
  destruct (compute_shift_from_twilight_exact
              (PyKoala.mkSolarCrossCorrOffset [] []
                 (PyKoala.mkWavelengthOffset None None None))
              [0; 1] [Fin 1] [[Fin 1]]
              [[[Fin 1]]; [[Fin 2]]] [[[Fin 1]]; [[Fin 1]]] [[Fin 1]] [[Fin 1]]
              use_mean _ ltac:(discriminate) ltac:(discriminate)
              ltac:(discriminate) all_chi2_example)
    as (self' & res & _ & _ & Hrun & _).
  now exists self', res.
Qed.

Lemma compute_shift_from_twilight_paired_arrays_witness :
  ∃ (self' : PyKoala.SolarCrossCorrOffset) (res : PyKoala.shift_results),
    PyKoala.SolarCrossCorrOffset.compute_shift_from_twilight
      (PyKoala.mkSolarCrossCorrOffset [] []
         (PyKoala.mkWavelengthOffset None None None))
      (map Fin [0; 1]) [Fin 1] [[Fin 1]]
      [[[Fin 1]]; [[Fin 2]]] [[[Fin 1]]; [[Fin 1]]] [[Fin 1]] [[Fin 1]] true
    = Ok (self', res)
    ∧ ∃ data error : ndarray,
        PyKoala.offset_data (PyKoala.solar_offset self') = Some data
        ∧ PyKoala.offset_error (PyKoala.solar_offset self') = Some error
        ∧ length data = 1%nat
        ∧ length error = 1%nat.
Proof.
  destruct (compute_shift_from_twilight_example true) as (self' & res & Hrun).
  exists self', res. split; [exact Hrun|].
  exact (compute_shift_from_twilight_paired_arrays _ _ _ _ _ _ _ _ _ _ _ Hrun).
Defined.


(** ** [FluxCalibration.extract_stellar_flux]: a fit that fails *)

Lemma broadcast2_error (f : float → float → float) (a b : ndarray)
    (e : exception) :
  broadcast2 f a b = Raise e → e = ValueError.
Proof.
  unfold broadcast2. destruct (decide _); [discriminate|].
  destruct a as [|? [|? ?]], b as [|? [|? ?]]; try discriminate;
    now intros [= <-].
Qed.

Lemma mapM_getitem_error {A} (l : list A) (ks : list nat) (e : exception) :
  mapM (M := result) (getitem l) ks = Raise e → e = IndexError.
Proof.
  induction ks as [|k ks IH]; cbn; [discriminate|].
  destruct (getitem l k) as [y|e1] eqn:E; cbn.
  - destruct (mapM (getitem l) ks); cbn; [discriminate|].
    intros H. apply IH. congruence.
  - unfold getitem in E. destruct (l !! k); congruence.
Qed.

Lemma amin_error (a : ndarray) (e : exception) :
  amin a = Raise e → e = ValueError.
Proof. destruct a; simpl; congruence. Qed.

Lemma amax_error (a : ndarray) (e : exception) :
  amax a = Raise e → e = ValueError.
Proof. destruct a; simpl; congruence. Qed.

Lemma centre_of_mass_error (w x y : ndarray) (e : exception) :
  centre_of_mass w x y = Raise e → e = ValueError.
Proof.
  unfold centre_of_mass. cbv zeta.
  destruct (broadcast2 fmul w x) eqn:E1; cbn;
    [|intros [= <-]; now apply broadcast2_error in E1].
  destruct (broadcast2 fmul w y) eqn:E2; cbn; [discriminate|].
  intros [= <-]. now apply broadcast2_error in E2.
Qed.

Lemma growth_curve_1d_error (f x y : ndarray) (e : exception) :
  growth_curve_1d f x y = Raise e → e = ValueError ∨ e = IndexError.
Proof.
  unfold growth_curve_1d.
  destruct (broadcast2 fadd _ _) as [r2|] eqn:Er; cbn;
    [|intros [= <-]; left; now apply broadcast2_error in Er].
  destruct (mapM (getitem f) (argsort r2)) eqn:Ef; cbn;
    [|intros [= <-]; right; now apply mapM_getitem_error in Ef].
  destruct (mapM (getitem r2) (argsort r2)) eqn:Er2; cbn; [discriminate|].
  intros [= <-]. right. now apply mapM_getitem_error in Er2.
Qed.

Lemma for_each_error {A S} (body : S → A → result S) (l : list A) (s : S)
    (e : exception) :
  for_each body l s = Raise e → ∃ s' x, x ∈ l ∧ body s' x = Raise e.
Proof.
  revert s. induction l as [|x l IH]; intros s; simpl; [discriminate|].
  destruct (body s x) as [s1|e1] eqn:E; cbn.
  - intros H. destruct (IH s1 H) as (s' & y & Hy & Hb).
    exists s', y. split; [now right|exact Hb].
  - intros [= <-]. exists s, x. split; [now left|exact E].
Qed.

Section fit_failure.
Import FluxCalibration.
Variable curve_fit :
  (ndarray → ndarray → ndarray) → ndarray → ndarray →
  ndarray * ndarray → ndarray → result (ndarray * list ndarray).

(** An exception that leaves a pass of the loop is the one that
    [curve_fit] raised, whatever its class, or a [ValueError] or an
    [IndexError] of the array operations around it. *)
Lemma fit_chunk_error (profile : ndarray → ndarray → ndarray)
    (bounds : option (ndarray * ndarray)) (wave_window : nat)
    (wavelength : ndarray) (data : list ndarray) (x y : ndarray)
    (acc : extraction) (lambda_ : nat) (e : exception) :
  fit_chunk curve_fit profile bounds wave_window wavelength data x y acc lambda_
  = Raise e →
  (∃ r2 growth_c p_bounds p0,
      curve_fit profile r2 growth_c p_bounds p0 = Raise e)
  ∨ e = ValueError ∨ e = IndexError.
Proof.
  unfold fit_chunk. cbv zeta.
  destruct (negb _); [discriminate|].
  destruct (centre_of_mass _ x y) as [[x0 y0]|e1] eqn:Ecom; cbn;
    [|intros [= <-]; right; left; now apply centre_of_mass_error in Ecom].
  destruct (amin y) as [y_min|] eqn:E1; cbn;
    [|intros [= <-]; right; left; now apply amin_error in E1].
  destruct (amax y) as [y_max|] eqn:E2; cbn;
    [|intros [= <-]; right; left; now apply amax_error in E2].
  destruct (amin x) as [x_min|] eqn:E3; cbn;
    [|intros [= <-]; right; left; now apply amin_error in E3].
  destruct (amax x) as [x_max|] eqn:E4; cbn;
    [|intros [= <-]; right; left; now apply amax_error in E4].
  destruct (growth_curve_1d _ _ _) as [[r2 growth_c]|e1] eqn:Eg; cbn;
    [|intros [= <-]; right; now apply growth_curve_1d_error in Eg].
  unfold getitem_last. destruct (last growth_c) as [total|]; cbn;
    [|intros [= <-]; now right; right].
  destruct (curve_fit _ _ _ _ _) as [[popt pcov]|e1] eqn:Efit.
  - destruct (broadcast2 fsub growth_c _) eqn:Er; cbn; [discriminate|].
    intros [= <-]. right; left. now apply broadcast2_error in Er.
  - intros He. left. exists r2, growth_c. eexists _, _. rewrite Efit.
    destruct e1; congruence.
Qed.

Lemma fit_chunk_Ok_fitted (profile : ndarray → ndarray → ndarray)
    (bounds : option (ndarray * ndarray)) (wave_window : nat)
    (wavelength : ndarray) (data : list ndarray) (x y : ndarray)
    (acc acc' : extraction) (lambda_ : nat) :
  fit_chunk curve_fit profile bounds wave_window wavelength data x y acc lambda_
  = Ok acc' →
  acc' = acc
  ∨ ∃ r2 growth_c p_bounds p0 fit,
      curve_fit profile r2 growth_c p_bounds p0 = Ok fit.
Proof.
  unfold fit_chunk. cbv zeta.
  destruct (negb _); [intros [= <-]; now left|].
  destruct (centre_of_mass _ x y) as [[x0 y0]|]; cbn; [|discriminate].
  destruct (amin y); cbn; [|discriminate].
  destruct (amax y); cbn; [|discriminate].
  destruct (amin x); cbn; [|discriminate].
  destruct (amax x); cbn; [|discriminate].
  destruct (growth_curve_1d _ _ _) as [[r2 growth_c]|]; cbn; [|discriminate].
  destruct (getitem_last growth_c); cbn; [|discriminate].
  destruct (curve_fit _ _ _ _ _) as [fit|e1] eqn:Efit.
  - intros _. right. eauto 6.
  - destruct e1; discriminate.
Qed.

(** The exception that [curve_fit] raises leaves [extract_stellar_flux]
    as it is: when the fit of every chunk fails with [e], the method raises
    [e] itself (or a [ValueError] or an [IndexError] of its array
    operations), and has fitted no chunk when it returns. *)
Lemma extract_stellar_flux_propagates (e : exception)
    (data_container : StarData) (wave_range : option (float * float))
    (wave_window : option nat) (profile : ndarray → ndarray → ndarray)
    (bounds : option (ndarray * ndarray)) :
  (∀ r2 growth_c p_bounds p0,
      curve_fit profile r2 growth_c p_bounds p0 = Raise e) →
  match extract_stellar_flux curve_fit data_container wave_range wave_window
          profile bounds with
  | Ok res => profile_popt res = []
  | Raise e' => e' = e ∨ e' = ValueError ∨ e' = IndexError
  end.
Proof.
  intros Hfit. unfold extract_stellar_flux. cbv zeta.
  destruct (boolean_index (star_wavelength data_container) _) as [w|e1] eqn:Ew;
    cbn.
  2:{ unfold boolean_index in Ew. destruct (decide _); [discriminate|].
      injection Ew as <-. now right; right. }
  destruct (boolean_index (star_data data_container) _) as [d|e1] eqn:Ed; cbn.
  2:{ unfold boolean_index in Ed. destruct (decide _); [discriminate|].
      injection Ed as <-. now right; right. }
  destruct (range_step _ _) as [chunks|e1] eqn:Ec; cbn.
  2:{ unfold range_step in Ec. destruct (decide _); [|discriminate].
      injection Ec as <-. now right; left. }
  destruct (for_each _ chunks _) as [res|e1] eqn:Eloop.
  - eapply (for_each_invariant (λ acc, profile_popt acc = []));
      [| |exact Eloop]; [|reflexivity].
    intros acc k acc' Hacc Hk.
    apply fit_chunk_Ok_fitted in Hk as [->|(r2 & g & b & p0 & fit & Hk)];
      [exact Hacc|]. rewrite Hfit in Hk. discriminate.
  - apply for_each_error in Eloop as (acc & k & _ & Hk).
    apply fit_chunk_error in Hk as [(r2 & g & b & p0 & Hk)|Hk]; [|now right].
    rewrite Hfit in Hk. injection Hk as <-. now left.
Qed.
End fit_failure.

(** C5 (the behaviour of the code).  When the fit of a chunk does not
    converge, SciPy's [curve_fit] raises [RuntimeError]; the handler of
    [extract_stellar_flux] catches [FitError] only, so this [RuntimeError]
    is what the caller receives, and [FitError] is never raised: the
    outcome is [RuntimeError] (or a [ValueError] or an [IndexError] of the
    array operations), or a result in which no chunk was fitted. *)
Theorem extract_stellar_flux_fit_failure
    (curve_fit : (ndarray → ndarray → ndarray) → ndarray → ndarray →
                 ndarray * ndarray → ndarray → result (ndarray * list ndarray))
    (data_container : FluxCalibration.StarData)
    (wave_range : option (float * float)) (wave_window : option nat)
    (profile : ndarray → ndarray → ndarray)
    (bounds : option (ndarray * ndarray)) :
  (∀ r2 growth_c p_bounds p0,
      curve_fit profile r2 growth_c p_bounds p0 = Raise RuntimeError) →
  FluxCalibration.extract_stellar_flux curve_fit data_container wave_range
    wave_window profile bounds ≠ Raise FitError
  ∧ match FluxCalibration.extract_stellar_flux curve_fit data_container
            wave_range wave_window profile bounds with
    | Ok res => FluxCalibration.profile_popt res = []
    | Raise e => e = RuntimeError ∨ e = ValueError ∨ e = IndexError
    end.
Proof.
  intros Hfit.
  pose proof (extract_stellar_flux_propagates curve_fit RuntimeError
                data_container wave_range wave_window profile bounds Hfit) as H.
  split; [|exact H].
  destruct (FluxCalibration.extract_stellar_flux _ _ _ _ _ _) as [res|e];
    [discriminate|].
  destruct H as [->|[->| ->]]; discriminate.
Qed.

(** A star in one spaxel and one wavelength chunk, and a fit that does not
    converge: the [RuntimeError] of [curve_fit] reaches the caller. *)
Example extract_stellar_flux_runtime_error :
  FluxCalibration.extract_stellar_flux
    (λ _ _ _ _ _, Raise RuntimeError)
    (FluxCalibration.mkStarData [Fin 5000] [[Fin 1]] [Fin 0] [Fin 0])
    None None (λ r2 _, r2) None
  = Raise RuntimeError.
Proof. reflexivity. Qed.

Lemma extract_stellar_flux_fit_failure_witness :
  FluxCalibration.extract_stellar_flux
    (λ _ _ _ _ _, Raise RuntimeError)
    (FluxCalibration.mkStarData [Fin 5000] [[Fin 1]] [Fin 0] [Fin 0])
    None None (λ r2 _, r2) None ≠ Raise FitError
  ∧ match FluxCalibration.extract_stellar_flux
            (λ _ _ _ _ _, Raise RuntimeError)
            (FluxCalibration.mkStarData [Fin 5000] [[Fin 1]] [Fin 0] [Fin 0])
            None None (λ r2 _, r2) None with
    | Ok res => FluxCalibration.profile_popt res = []
    | Raise e => e = RuntimeError ∨ e = ValueError ∨ e = IndexError
    end.
Proof.
  apply (extract_stellar_flux_fit_failure (λ _ _ _ _ _, Raise RuntimeError)).
  reflexivity.
Defined.

(** * Part III: further properties of the code *)

(** ** [koala/ancillary.py] *)

Lemma length_diff (a : ndarray) : length (diff a) = pred (length a).
Proof. unfold diff. rewrite length_zip_with. destruct a; simpl; lia. Qed.

Lemma length_removelast' {A} (l : list A) :
  length (removelast l) = pred (length l).
Proof. rewrite removelast_firstn_len, length_take. lia. Qed.

Lemma length_cumsum_from (acc : float) (a : ndarray) :
  length (cumsum_from acc a) = length a.
Proof. revert acc. induction a as [|v a IH]; intros acc; simpl; [|rewrite IH]; reflexivity. Qed.

Lemma length_nancumsum (a : ndarray) : length (nancumsum a) = length a.
Proof. unfold nancumsum, cumsum. now rewrite length_cumsum_from, length_map. Qed.

Lemma bin_edges_Ok (w : ndarray) :
  (2 ≤ length w)%nat →
  ∃ e, bin_edges w = Ok e ∧ length e = S (length w).
Proof.
  intros Hw. destruct w as [|x [|y l]]; simpl in Hw; try lia.
  unfold bin_edges, getitem_last.
  pose proof (length_diff (x :: y :: l)) as Hd.
  destruct (diff (x :: y :: l)) as [|d ds] eqn:Ed; [simpl in Hd; lia|].
  rewrite !last_cons_Some. cbn [getitem lookup list_lookup mbind result_bind].
  eexists; split; [reflexivity|].
  rewrite !length_app, length_zip_with, length_removelast'. simpl in *. lia.
Qed.

Lemma broadcast2_Ok_length (f : float → float → float) (a b : ndarray) :
  length b = length a ∨ length b = 1%nat →
  ∃ out, broadcast2 f a b = Ok out ∧ length out = length a.
Proof.
  intros Hb. unfold broadcast2. destruct (decide _) as [E|E].
  - eexists; split; [reflexivity|]. rewrite length_zip_with. lia.
  - destruct Hb as [Hb|Hb]; [lia|].
    destruct b as [|y [|]]; simpl in Hb; try lia.
    destruct a as [|x [|x' a]].
    + eexists; split; reflexivity.
    + simpl in E. lia.
    + eexists; split; [reflexivity|]. now rewrite length_map.
Qed.

Lemma broadcast2_mismatch (f : float → float → float) (a b : ndarray) :
  length a ≠ length b → length a ≠ 1%nat → length b ≠ 1%nat →
  broadcast2 f a b = Raise ValueError.
Proof.
  intros E Ha Hb. unfold broadcast2. rewrite decide_False by exact E.
  destruct a as [|x [|x' a]]; destruct b as [|y [|y' b]];
    simpl in *; try reflexivity; lia.
Qed.

Lemma interp_Ok (x xp fp : ndarray) :
  xp ≠ [] → length xp = length fp →
  ∃ out, interp x xp fp = Ok out ∧ length out = length x.
Proof.
  intros Hne Hl. unfold interp.
  rewrite decide_False by (destruct xp; [done|simpl; lia]).
  rewrite decide_True by exact Hl.
  destruct (finite xp); eexists; (split; [reflexivity|]); now rewrite length_map.
Qed.

Lemma flux_conserving_interpolation_Ok_length
    (new_wavelength wavelength spectra : ndarray) :
  (2 ≤ length wavelength)%nat → (2 ≤ length new_wavelength)%nat →
  length spectra = length wavelength ∨ length spectra = 1%nat →
  ∃ out, flux_conserving_interpolation new_wavelength wavelength spectra
         = Ok out
         ∧ length out = length new_wavelength.
Proof.
  unfold flux_conserving_interpolation. intros Hw Hnw Hs.
  destruct (bin_edges_Ok wavelength Hw) as (e & -> & He).
  destruct (bin_edges_Ok new_wavelength Hnw) as (ne & -> & Hne).
  cbn [mbind result_bind].
  destruct (broadcast2_Ok_length fmul (diff e) spectra) as (flux & -> & Hf).
  { rewrite length_diff, He. simpl. exact Hs. }
  cbn [mbind result_bind].
  destruct (interp_Ok ne e (Fin 0 :: nancumsum flux)) as (nc & -> & Hnc).
  { destruct e; [simpl in He; lia|done]. }
  { cbn [length]. rewrite length_nancumsum, Hf, length_diff, He. reflexivity. }
  cbn [mbind result_bind].
  destruct (broadcast2_Ok_length fdiv (diff nc) (diff ne)) as (out & -> & Ho).
  { left. rewrite !length_diff. lia. }
  exists out. split; [reflexivity|]. rewrite Ho, length_diff, Hnc, Hne.
  reflexivity.
Qed.

(** [flux_conserving_interpolation] returns exactly when both grids have at
    least two samples and the spectrum has one value per old sample (or a
    single value, which is broadcast); the result then has one value per
    new sample.  A grid of fewer than two samples raises [IndexError], a
    spectrum of another length [ValueError]. *)
Theorem flux_conserving_interpolation_shape
    (new_wavelength wavelength spectra : ndarray) :
  ((2 ≤ length wavelength)%nat → (2 ≤ length new_wavelength)%nat →
   length spectra = length wavelength ∨ length spectra = 1%nat →
   ∃ out, flux_conserving_interpolation new_wavelength wavelength spectra
          = Ok out
          ∧ length out = length new_wavelength)
  ∧ ((length wavelength < 2)%nat ∨ (length new_wavelength < 2)%nat →
     flux_conserving_interpolation new_wavelength wavelength spectra
     = Raise IndexError)
  ∧ ((2 ≤ length wavelength)%nat → (2 ≤ length new_wavelength)%nat →
     length spectra ≠ length wavelength → length spectra ≠ 1%nat →
     flux_conserving_interpolation new_wavelength wavelength spectra
     = Raise ValueError).
Proof.
  split; [apply flux_conserving_interpolation_Ok_length|].
  unfold flux_conserving_interpolation. split.
  - intros [Hw|Hnw].
    + now rewrite (bin_edges_short wavelength Hw).
    + destruct (decide (2 ≤ length wavelength)%nat) as [Hw|Hw].
      * destruct (bin_edges_Ok wavelength Hw) as (e & -> & He).
        cbn [mbind result_bind].
        now rewrite (bin_edges_short new_wavelength Hnw).
      * rewrite (bin_edges_short wavelength) by lia. reflexivity.
  - intros Hw Hnw Hs Hs1.
    destruct (bin_edges_Ok wavelength Hw) as (e & -> & He).
    destruct (bin_edges_Ok new_wavelength Hnw) as (ne & -> & Hne).
    cbn [mbind result_bind].
    rewrite broadcast2_mismatch; [reflexivity| | |exact Hs1];
      rewrite length_diff, He; simpl; lia.
Qed.

(** *** The centre of mass *)




(** *** The curve of growth *)











(** ** [koala/corrections/flux_calibration.py] *)

(** *** The response curve *)

(** At a sample point [np.interp] answers the sample value, whatever the
    other values are (NaN included). *)
Lemma interp_scan_node (xp : list R) (fp : ndarray) (j : nat) (x : R)
    (y : float) :
  increasing xp → xp !! j = Some x → fp !! j = Some y →
  interp_scan x xp fp = y.
Proof.
  revert fp j. induction xp as [|x0 xp IH]; intros fp j Hs Hx Hy; [done|].
  destruct fp as [|y0 fp]; [done|].
  apply StronglySorted_inv in Hs as [Hs H0].
  destruct xp as [|x1 xp].
  - destruct j; [|done]. simpl in *. destruct fp; congruence.
  - destruct fp as [|y1 fp].
    + destruct j as [|[|j]]; simpl in *; congruence.
    + cbn [interp_scan]. destruct j as [|j]; simpl in Hx, Hy.
      * injection Hx as ->. injection Hy as ->.
        apply Forall_cons in H0 as [H0 _].
        destruct (decide (x < x1)); [|lra].
        destruct (decide (x = x)); [reflexivity|done].
      * assert (x1 <= x) as Hle.
        { destruct j; simpl in Hx; [injection Hx as ->; lra|].
          apply StronglySorted_inv in Hs as [_ H1].
          rewrite Forall_forall in H1. left. apply H1.
          eapply list_elem_of_lookup_2. exact Hx. }
        destruct (decide (x < x1)); [lra|].
        apply (IH (y1 :: fp) j); assumption.
Qed.

Lemma interp1_node (xp : list R) (fp : ndarray) (j : nat) (x : R)
    (y : float) :
  increasing xp → xp !! j = Some x → fp !! j = Some y →
  interp1 (Fin x) xp fp = y.
Proof.
  intros Hs Hx Hy. destruct xp as [|x0 xp]; [done|].
  destruct fp as [|y0 fp]; [done|]. cbn [interp1].
  destruct (increasing_bounds (x0 :: xp) j x Hs Hx) as [Hle _]. simpl in Hle.
  destruct (decide (x < x0)); [lra|].
  now apply (interp_scan_node (x0 :: xp) (y0 :: fp) j).
Qed.

Lemma interp_nodes (w : list R) (fp : ndarray) :
  increasing w → w ≠ [] → length w = length fp →
  interp (map Fin w) (map Fin w) fp = Ok fp.
Proof.
  intros Hs Hne Hl. unfold interp. rewrite !length_map.
  rewrite decide_False by (destruct w; [done|simpl; lia]).
  rewrite decide_True by exact Hl. rewrite finite_Fin. f_equal.
  rewrite map_map. apply list_eq. intros k.
  change (map ?f w) with (f <$> w). rewrite list_lookup_fmap.
  destruct (w !! k) as [x|] eqn:Ex; simpl.
  - destruct (fp !! k) as [y|] eqn:Ey.
    + f_equal. now apply (interp1_node w fp k).
    + apply lookup_lt_Some in Ex. apply lookup_ge_None in Ey. lia.
  - symmetry. apply lookup_ge_None. apply lookup_ge_None in Ex. lia.
Qed.

(** The interpolator that [interp1d] builds on increasing abscissas. *)
Lemma interp1d_increasing (w : list R) (y : ndarray) (fill : float) :
  increasing w → w ≠ [] → length w = length y →
  ∃ response,
    interp1d (map Fin w) y fill = Ok response
    ∧ response NaN = NaN
    ∧ ∀ v, response (Fin v)
           = if decide (v < hd 0 w) then fill
             else if decide (List.last w 0 < v) then fill
             else interp1 (Fin v) w y.
Proof.
  intros Hs Hne Hl. unfold interp1d. rewrite !length_map.
  rewrite decide_True by exact Hl.
  rewrite decide_False by (destruct w; [done|simpl; lia]).
  rewrite finite_Fin. eexists. split; [reflexivity|]. cbv zeta.
  assert ((zip w y).*1 = w) as Hfst by (apply fst_zip; lia).
  assert ((zip w y).*2 = y) as Hsnd by (apply snd_zip; lia).
  rewrite sort_samples_increasing by (now rewrite Hfst).
  rewrite Hfst, Hsnd. split; reflexivity.
Qed.

Lemma length_cumsum (a : ndarray) : length (cumsum a) = length a.
Proof. apply length_cumsum_from. Qed.

Section response_more.
Import FluxCalibration.
Variable mask_lines : ndarray → list bool.
Variable gaussian_filter1d : ndarray → float → ndarray.
Variable polyfit_deriv : ndarray → ndarray → nat → result (float → float).

(** The linear branch on any spectra of the length of the wavelength
    array: the method hands [interp1d] one value per wavelength. *)
Lemma get_response_curve_linear_interp1d (w : list R)
    (obs_spectra ref_spectra : ndarray) :
  (2 ≤ length w)%nat →
  length obs_spectra = length w → length ref_spectra = length w →
  ∃ r : ndarray,
    length r = length w
    ∧ get_response_curve mask_lines gaussian_filter1d polyfit_deriv
        (map Fin w) obs_spectra ref_spectra None None false
      = interp1d (map Fin w) r (Fin 0).
Proof.
  intros Hw Ho Hr. unfold get_response_curve.
  rewrite (bin_edges_Fin w Hw). cbn [mbind result_bind].
  rewrite broadcast2_same_length by lia. cbn [mbind result_bind].
  pose proof (length_edgesR w Hw) as Hle.
  rewrite broadcast2_same_length
    by (rewrite length_zip_with, length_diff, length_map; lia).
  cbn [mbind result_bind].
  set (weighted := zip_with fmul _ _).
  assert (length weighted = length w) as Hlw
    by (unfold weighted;
        rewrite !length_zip_with, length_diff, length_map; lia).
  pose proof (length_cumsum weighted) as Hc. rewrite Hlw in Hc.
  destruct (cumsum weighted) as [|c0 [|c1 cs]] eqn:Ec; simpl in Hc; try lia.
  cbn [getitem lookup list_lookup mbind result_bind].
  assert (length (diff (fsub c0 (fhalf (fsub c1 c0)) :: c0 :: c1 :: cs))
          = length (diff (map Fin (edgesR w)))) as Hd.
  { rewrite !length_diff, length_map, Hle. cbn [length]. lia. }
  rewrite broadcast2_same_length by exact Hd.
  cbn [mbind result_bind].
  eexists. split; [|reflexivity].
  rewrite length_zip_with, Hd, length_diff, length_map, Hle. simpl. lia.
Qed.

(** The response that the linear branch returns extrapolates nothing:
    outside the range of the input wavelengths it is zero, for any
    spectra. *)
Theorem get_response_curve_zero_outside (w : list R)
    (obs_spectra ref_spectra : ndarray) :
  increasing w → (2 ≤ length w)%nat →
  length obs_spectra = length w → length ref_spectra = length w →
  ∃ response : float → float,
    get_response_curve mask_lines gaussian_filter1d polyfit_deriv
      (map Fin w) obs_spectra ref_spectra None None false = Ok response
    ∧ ∀ x : R, x < hd 0 w ∨ List.last w 0 < x → response (Fin x) = Fin 0.
Proof.
  intros Hs Hw Ho Hr.
  destruct (get_response_curve_linear_interp1d w obs_spectra ref_spectra
              Hw Ho Hr) as (r & Hlr & ->).
  destruct (interp1d_increasing w r (Fin 0) Hs) as (response & -> & _ & Hresp).
  { destruct w; [simpl in Hw; lia|done]. }
  { lia. }
  exists response. split; [reflexivity|].
  intros x Hx. rewrite Hresp.
  destruct (decide (x < hd 0 w)); [reflexivity|].
  destruct (decide (List.last w 0 < x)); [reflexivity|]. lra.
Qed.

(** Masking the absorption lines with a mask that keeps every pixel is
    the same as not masking: the spectra are interpolated onto their own
    wavelengths, which returns them unchanged. *)
Theorem get_response_curve_full_mask (w : list R)
    (obs_spectra ref_spectra : ndarray)
    (pol_deg : option nat) (gauss_smooth_sigma : option float) :
  increasing w → w ≠ [] →
  length obs_spectra = length w → length ref_spectra = length w →
  mask_lines (map Fin w) = map (λ _, true) w →
  get_response_curve mask_lines gaussian_filter1d polyfit_deriv
    (map Fin w) obs_spectra ref_spectra pol_deg gauss_smooth_sigma true
  = get_response_curve mask_lines gaussian_filter1d polyfit_deriv
      (map Fin w) obs_spectra ref_spectra pol_deg gauss_smooth_sigma false.
Proof.
  intros Hs Hne Ho Hr Hmask. unfold get_response_curve.
  destruct (bin_edges (map Fin w)) as [e|err]; [|reflexivity].
  cbn [mbind result_bind]. rewrite Hmask.
  assert (∀ {A} (a : list A), length a = length w →
            boolean_index a (map (λ _, true) w) = Ok a) as Hall.
  { intros A a Ha. unfold boolean_index.
    rewrite decide_True by (rewrite length_map; exact Ha). f_equal.
    clear -Ha. revert a Ha.
    induction w as [|x w IH]; intros [|v a] Ha; simpl in Ha; try lia;
      [reflexivity|].
    cbn [map zip_with]. rewrite filter_cons_True by reflexivity.
    rewrite fmap_cons. cbn [fst]. f_equal. apply IH. lia. }
  rewrite !Hall by (rewrite ?length_map; lia).
  cbn [mbind result_bind].
  rewrite !interp_nodes by (try assumption; lia).
  reflexivity.
Qed.

End response_more.

Lemma get_response_curve_zero_outside_witness :
  ∃ response : float → float,
    FluxCalibration.get_response_curve
      (λ _, []) (λ a _, a) (λ _ _ _, Raise ValueError)
      (map Fin [1; 2; 4]) [Fin 3; NaN; Fin 6] [Fin 1; Fin 2; Fin 0]
      None None false = Ok response
    ∧ ∀ x : R, x < hd 0 [1; 2; 4] ∨ List.last [1; 2; 4] 0 < x →
               response (Fin x) = Fin 0.
Proof.
  apply (get_response_curve_zero_outside
           (λ _, []) (λ a _, a) (λ _ _ _, Raise ValueError) [1; 2; 4]).
  - repeat constructor; lra.
  - simpl; lia.
  - reflexivity.
  - reflexivity.
Defined.

Lemma get_response_curve_full_mask_witness :
  FluxCalibration.get_response_curve
    (λ a, map (λ _, true) a) (λ a _, a) (λ _ _ _, Raise ValueError)
    (map Fin [1; 2; 4]) [Fin 3; NaN; Fin 6] [Fin 1; Fin 2; Fin 3]
    None None true
  = FluxCalibration.get_response_curve
      (λ a, map (λ _, true) a) (λ a _, a) (λ _ _ _, Raise ValueError)
      (map Fin [1; 2; 4]) [Fin 3; NaN; Fin 6] [Fin 1; Fin 2; Fin 3]
      None None false.
Proof.
  apply (get_response_curve_full_mask
           (λ a, map (λ _, true) a) (λ a _, a) (λ _ _ _, Raise ValueError)
           [1; 2; 4]).
  - repeat constructor; lra.
  - discriminate.
  - reflexivity.
  - reflexivity.
  - reflexivity.
Defined.

(** *** The library of calibration stars *)

Lemma insert_str_perm (s : string) (l : list string) :
  insert_str s l ≡ₚ s :: l.
Proof.
  induction l as [|t l IH]; simpl; [reflexivity|].
  destruct (String.leb s t); [reflexivity|].
  rewrite IH. apply Permutation_swap.
Qed.

Lemma sort_str_perm (l : list string) : sort_str l ≡ₚ l.
Proof.
  unfold sort_str. induction l as [|s l IH]; simpl; [reflexivity|].
  now rewrite insert_str_perm, IH.
Qed.

Lemma insert_str_sorted (s : string) (l : list string) :
  Sorted (λ a b, String.leb a b = true) l →
  Sorted (λ a b, String.leb a b = true) (insert_str s l).
Proof.
  induction l as [|t l IH]; intros Hs; simpl.
  - repeat constructor.
  - destruct (String.leb s t) eqn:E.
    + constructor; [exact Hs|]. constructor. exact E.
    + apply Sorted_inv in Hs as [Hs Ht].
      constructor; [apply IH; exact Hs|].
      destruct l as [|u l]; simpl.
      * constructor. destruct (String.leb_total s t); congruence.
      * destruct (String.leb s u).
        -- constructor. destruct (String.leb_total s t); congruence.
        -- constructor. now inversion Ht.
Qed.

Lemma sort_str_sorted (l : list string) :
  Sorted (λ a b, String.leb a b = true) (sort_str l).
Proof.
  unfold sort_str. induction l as [|s l IH]; simpl; [constructor|].
  now apply insert_str_sorted.
Qed.

(** [list_available_stars] lists every file of the star directory once, in
    sorted order, with one star name per file. *)
Theorem list_available_stars_sorted (fs : FluxCalibration.Files) :
  (FluxCalibration.list_available_stars fs).2
    ≡ₚ FluxCalibration.listdir_stars fs
  ∧ Sorted (λ a b, String.leb a b = true)
      (FluxCalibration.list_available_stars fs).2
  ∧ length (FluxCalibration.list_available_stars fs).1
    = length (FluxCalibration.listdir_stars fs)
  ∧ ∀ (i : nat) (file : string),
      (FluxCalibration.list_available_stars fs).2 !! i = Some file →
      (FluxCalibration.list_available_stars fs).1 !! i
      = Some (split0 "_" (split0 "." file)).
Proof.
  unfold FluxCalibration.list_available_stars. cbn [fst snd].
  split; [apply sort_str_perm|]. split; [apply sort_str_sorted|]. split.
  - rewrite length_map. apply Permutation_length, sort_str_perm.
  - intros i file Hi.
    change (map ?f ?l) with (f <$> l). rewrite list_lookup_fmap, Hi.
    reflexivity.
Qed.

Lemma where_eq_last (pre post : list string) (key : string) :
  key ∉ post →
  last (FluxCalibration.where_eq (pre ++ key :: post) key)
  = Some (length pre).
Proof.
  intros Hpost. unfold FluxCalibration.where_eq.
  rewrite imap_app, filter_app, fmap_app. cbn [imap].
  rewrite filter_cons_True by reflexivity.
  assert (filter (λ p : nat * string, p.2 = key)
            (imap ((λ n, (λ i n0, (i, n0)) (length pre + n)%nat) ∘ S) post)
          = []) as ->.
  { assert (∀ (f : nat → nat), filter (λ p : nat * string, p.2 = key)
              (imap (λ i n, (f i, n)) post) = []) as Hgen.
    { clear -Hpost. induction post as [|n l IH]; intros f; [reflexivity|].
      cbn [imap].
      rewrite filter_cons_False
        by (simpl; intros ->; apply Hpost; left).
      apply (IH ltac:(intros H; apply Hpost; now right) (f ∘ S)). }
    apply (Hgen (λ i, (length pre + S i)%nat)). }
  rewrite fmap_cons, fmap_nil, last_snoc. simpl. f_equal. lia.
Qed.

(** When several files of the star directory carry the name that is
    looked up, [read_calibration_star] reads the last of them in sorted
    order; the [path] argument is then ignored, and the spectrum read is
    both stored in the object and returned. *)
Theorem read_calibration_star_last_match (fs : FluxCalibration.Files)
    (self : FluxCalibration.FluxCalibration) (name key file : string)
    (pre post : list string) (wave spectra : ndarray)
    (path : option string) (flux_units : option R) :
  FluxCalibration.lookup_name name = Ok key →
  (FluxCalibration.list_available_stars fs).1 = pre ++ key :: post →
  key ∉ post →
  (FluxCalibration.list_available_stars fs).2 !! length pre = Some file →
  FluxCalibration.loadtxt fs (FluxCalibration.star_path fs file)
  = Ok (wave, spectra) →
  FluxCalibration.read_calibration_star fs self (Some name) path flux_units
  = (Ok (Some wave, Some spectra),
     FluxCalibration.mkFluxCalibration (Some spectra) (Some wave)
       (FluxCalibration.calib_units self)).
Proof.
  intros Hkey Hnames Hpost Hfile Hload.
  unfold FluxCalibration.read_calibration_star. rewrite Hkey.
  destruct (FluxCalibration.list_available_stars fs) as [names files].
  cbn [fst snd] in Hnames, Hfile. subst names.
  rewrite where_eq_last by exact Hpost.
  unfold getitem. rewrite Hfile. cbv beta zeta iota.
  rewrite Hload. reflexivity.
Qed.

Lemma read_calibration_star_last_match_witness :
  FluxCalibration.read_calibration_star
    (FluxCalibration.mkFiles
       ["fhilt600_edited.dat"; "ffeige34.dat"; "fhilt600.dat"]
       (λ file, file)
       (λ p, if String.eqb p "fhilt600_edited.dat"
             then Ok ([Fin 1], [Fin 2]) else Ok ([Fin 3], [Fin 4])))
    (FluxCalibration.mkFluxCalibration None None (/ 10 ^ 16))
    (Some "Hilt600") (Some "elsewhere.dat") None
  = (Ok (Some [Fin 1], Some [Fin 2]),
     FluxCalibration.mkFluxCalibration (Some [Fin 2]) (Some [Fin 1])
       (/ 10 ^ 16)).
Proof.
  apply (read_calibration_star_last_match
           (FluxCalibration.mkFiles
              ["fhilt600_edited.dat"; "ffeige34.dat"; "fhilt600.dat"]
              (λ file, file)
              (λ p, if String.eqb p "fhilt600_edited.dat"
                    then Ok ([Fin 1], [Fin 2]) else Ok ([Fin 3], [Fin 4])))
           (FluxCalibration.mkFluxCalibration None None (/ 10 ^ 16))
           "Hilt600" "fhilt600"
           "fhilt600_edited.dat" ["ffeige34"; "fhilt600"] []).
  - reflexivity.
  - reflexivity.
  - apply not_elem_of_nil.
  - reflexivity.
  - reflexivity.
Defined.

(** *** Extracting the stellar flux *)

Lemma for_each_skip {A S} (body : S → A → result S) (l : list A) (s : S) :
  (∀ x, x ∈ l → body s x = Ok s) → for_each body l s = Ok s.
Proof.
  induction l as [|x l IH]; intros H; simpl; [reflexivity|].
  rewrite H by left. cbn. apply IH. intros y Hy. apply H. now right.
Qed.

Lemma boolean_index_Forall {A} (P : A → Prop) (a a' : list A)
    (mask : list bool) :
  FluxCalibration.boolean_index a mask = Ok a' → Forall P a → Forall P a'.
Proof.
  unfold FluxCalibration.boolean_index.
  destruct (decide _); [|discriminate]. intros [= <-] Ha.
  apply Forall_fmap. apply Forall_forall. intros [v b] Hv.
  apply list_elem_of_filter in Hv as [_ Hv]. simpl.
  apply elem_of_zip_l in Hv. rewrite Forall_forall in Ha. now apply Ha.
Qed.

Lemma boolean_index_Ok {A} (a : list A) (mask : list bool) :
  length a = length mask →
  ∃ a', FluxCalibration.boolean_index a mask = Ok a'.
Proof.
  intros H. unfold FluxCalibration.boolean_index.
  rewrite decide_True by exact H. eauto.
Qed.

Lemma nanmean_all_nan (a : ndarray) :
  Forall (λ v, v = NaN) a → nanmean a = NaN.
Proof.
  intros H. unfold nanmean.
  assert (non_nan a = []) as ->; [|reflexivity].
  unfold non_nan. induction H as [|v a -> _ IH]; [reflexivity|].
  simpl. exact IH.
Qed.

Lemma nanmean_axis0_all_nan (a : list ndarray) (ncols : nat) :
  Forall (Forall (λ v, v = NaN)) a →
  Forall (λ v, v = NaN) (nanmean_axis0 a ncols).
Proof.
  intros H. unfold nanmean_axis0. apply Forall_forall. intros v Hv.
  apply list_elem_of_fmap in Hv as (j & -> & _).
  apply nanmean_all_nan. apply Forall_forall. intros u Hu.
  apply list_elem_of_fmap in Hu as (row & -> & Hrow).
  rewrite Forall_forall in H. specialize (H row Hrow).
  rewrite list_lookup_total_alt.
  destruct (row !! j) as [u|] eqn:E; [|reflexivity]. simpl.
  rewrite Forall_forall in H. apply H. eapply list_elem_of_lookup_2, E.
Qed.

Section extraction.
Import FluxCalibration.
Variable curve_fit : (ndarray → ndarray → ndarray) → ndarray → ndarray →
                     ndarray * ndarray → ndarray →
                     result (ndarray * list ndarray).

Lemma fit_chunk_all_nan (profile : ndarray → ndarray → ndarray)
    (bounds : option (ndarray * ndarray)) (wave_window : nat)
    (wavelength : ndarray) (data : list ndarray) (x y : ndarray)
    (acc : extraction) (lambda_ : nat) :
  Forall (Forall (λ v, v = NaN)) data →
  fit_chunk curve_fit profile bounds wave_window wavelength data x y acc
    lambda_ = Ok acc.
Proof.
  intros Hd. unfold fit_chunk. cbv zeta.
  set (slice := nanmean_axis0 _ _).
  assert (existsb isfinite slice = false) as ->; [|reflexivity].
  assert (Forall (λ v, v = NaN) slice) as Hs.
  { apply nanmean_axis0_all_nan.
    apply Forall_take, Forall_drop. exact Hd. }
  induction Hs as [|v l -> _ IH]; [reflexivity|]. simpl. exact IH.
Qed.

(** A container whose data are all NaN yields an empty extraction: every
    wavelength chunk is skipped, and the fitter is never called (the
    statement holds for every fitter, also one that would always raise). *)
Theorem extract_stellar_flux_all_nan (data_container : StarData)
    (wave_range : option (float * float)) (wave_window : option nat)
    (profile : ndarray → ndarray → ndarray)
    (bounds : option (ndarray * ndarray)) :
  length (star_data data_container)
  = length (star_wavelength data_container) →
  Forall (Forall (λ v, v = NaN)) (star_data data_container) →
  wave_window ≠ Some 0%nat →
  extract_stellar_flux curve_fit data_container wave_range wave_window
    profile bounds
  = Ok (mkExtraction [] [] [] [] []).
Proof.
  intros Hl Hd Hw. unfold extract_stellar_flux. cbv zeta.
  set (mask := match wave_range with Some _ => _ | None => _ end).
  assert (length mask = length (star_wavelength data_container)) as Hm
    by (unfold mask; destruct wave_range as [[lo hi]|]; apply length_map).
  destruct (boolean_index_Ok (star_wavelength data_container) mask)
    as [w Ew]; [lia|].
  destruct (boolean_index_Ok (star_data data_container) mask)
    as [d Ed]; [lia|].
  rewrite Ew, Ed. cbn [mbind result_bind].
  unfold range_step.
  rewrite decide_False
    by (destruct wave_window as [[|n]|]; simpl; [done|lia|lia]).
  cbn [mbind result_bind].
  apply for_each_skip. intros k _. apply fit_chunk_all_nan.
  eapply boolean_index_Forall; [exact Ed|exact Hd].
Qed.

Lemma fit_chunk_Ok_lengths (profile : ndarray → ndarray → ndarray)
    (bounds : option (ndarray * ndarray)) (wave_window : nat)
    (wavelength : ndarray) (data : list ndarray) (x y : ndarray)
    (acc acc' : extraction) (lambda_ : nat) :
  fit_chunk curve_fit profile bounds wave_window wavelength data x y acc
    lambda_ = Ok acc' →
  acc' = acc
  ∨ (length (running_wavelength acc') = S (length (running_wavelength acc))
     ∧ length (profile_popt acc') = S (length (profile_popt acc))
     ∧ length (profile_var acc') = S (length (profile_var acc))
     ∧ length (residuals acc') = S (length (residuals acc))).
Proof.
  unfold fit_chunk. cbv zeta.
  destruct (negb _); [intros [= <-]; now left|].
  destruct (centre_of_mass _ x y) as [[x0 y0]|]; cbn; [|discriminate].
  destruct (amin y); cbn; [|discriminate].
  destruct (amax y); cbn; [|discriminate].
  destruct (amin x); cbn; [|discriminate].
  destruct (amax x); cbn; [|discriminate].
  destruct (growth_curve_1d _ _ _) as [[r2 growth_c]|]; cbn; [|discriminate].
  destruct (getitem_last growth_c); cbn; [|discriminate].
  destruct (curve_fit _ _ _ _ _) as [[popt pcov]|e1] eqn:Efit.
  - destruct (broadcast2 _ _ _); cbn; [|discriminate].
    intros [= <-]. right. cbn. rewrite !length_app. simpl. lia.
  - destruct e1; discriminate.
Qed.

Lemma for_each_fit_chunk_lengths (profile : ndarray → ndarray → ndarray)
    (bounds : option (ndarray * ndarray)) (wave_window : nat)
    (wavelength : ndarray) (data : list ndarray) (x y : ndarray)
    (chunks : list nat) (acc acc' : extraction) :
  for_each (fit_chunk curve_fit profile bounds wave_window wavelength data
              x y) chunks acc = Ok acc' →
  length (profile_popt acc) = length (running_wavelength acc) →
  length (profile_var acc) = length (running_wavelength acc) →
  length (residuals acc) = length (running_wavelength acc) →
  length (profile_popt acc') = length (running_wavelength acc')
  ∧ length (profile_var acc') = length (running_wavelength acc')
  ∧ length (residuals acc') = length (running_wavelength acc')
  ∧ (length (running_wavelength acc')
     ≤ length (running_wavelength acc) + length chunks)%nat.
Proof.
  revert acc. induction chunks as [|k chunks IH]; intros acc; simpl.
  - intros [= <-]. lia.
  - destruct (fit_chunk _ _ _ _ _ _ _ _ acc k) as [acc1|] eqn:E; cbn;
      [|discriminate].
    intros Hloop H1 H2 H3.
    apply fit_chunk_Ok_lengths in E as [->|(E1 & E2 & E3 & E4)].
    + specialize (IH acc Hloop H1 H2 H3). lia.
    + specialize (IH acc1 Hloop ltac:(lia) ltac:(lia) ltac:(lia)). lia.
Qed.

(** When [extract_stellar_flux] returns, [mean_wave], [optimal] and
    [variance] are parallel: one entry per fitted chunk, and at most one
    chunk per wavelength of the container. *)
Theorem extract_stellar_flux_parallel_results (data_container : StarData)
    (wave_range : option (float * float)) (wave_window : option nat)
    (profile : ndarray → ndarray → ndarray)
    (bounds : option (ndarray * ndarray)) (res : extraction) :
  extract_stellar_flux curve_fit data_container wave_range wave_window
    profile bounds = Ok res →
  length (profile_popt res) = length (running_wavelength res)
  ∧ length (profile_var res) = length (running_wavelength res)
  ∧ length (residuals res) = length (running_wavelength res)
  ∧ (length (running_wavelength res)
     ≤ length (star_wavelength data_container))%nat.
Proof.
  unfold extract_stellar_flux. cbv zeta.
  destruct (boolean_index (star_wavelength data_container) _) as [w|] eqn:Ew;
    cbn; [|discriminate].
  destruct (boolean_index (star_data data_container) _) as [d|]; cbn;
    [|discriminate].
  destruct (range_step _ _) as [chunks|] eqn:Ec; cbn; [|discriminate].
  intros Hloop.
  apply for_each_fit_chunk_lengths in Hloop as (H1 & H2 & H3 & H4);
    try reflexivity.
  split; [exact H1|]. split; [exact H2|]. split; [exact H3|].
  simpl in H4. etransitivity; [exact H4|].
  assert (length chunks ≤ length w)%nat as Hc.
  { unfold range_step in Ec. destruct (decide _); [discriminate|].
    injection Ec as <-.
    etransitivity; [apply length_filter|]. now rewrite length_map, length_seq. }
  assert (length w ≤ length (star_wavelength data_container))%nat as Hw.
  { unfold boolean_index in Ew. destruct (decide _); [|discriminate].
    injection Ew as <-. rewrite length_fmap.
    etransitivity; [apply length_filter|].
    rewrite length_zip_with. lia. }
  lia.
Qed.

End extraction.

Lemma extract_stellar_flux_all_nan_witness :
  FluxCalibration.extract_stellar_flux
    (λ _ _ _ _ _, Raise RuntimeError)
    (FluxCalibration.mkStarData [Fin 5000; Fin 5001]
       [[NaN; NaN]; [NaN; NaN]] [Fin 0; Fin 1] [Fin 0; Fin 0])
    (Some (Fin 4000, Fin 6000)) (Some 2%nat) (λ r2 _, r2) None
  = Ok (FluxCalibration.mkExtraction [] [] [] [] []).
Proof.
  apply (extract_stellar_flux_all_nan (λ _ _ _ _ _, Raise RuntimeError)
           (FluxCalibration.mkStarData [Fin 5000; Fin 5001]
              [[NaN; NaN]; [NaN; NaN]] [Fin 0; Fin 1] [Fin 0; Fin 0])).
  - reflexivity.
  - repeat constructor.
  - discriminate.
Defined.

Lemma extract_stellar_flux_parallel_results_witness :
  ∃ res : FluxCalibration.extraction,
    FluxCalibration.extract_stellar_flux
      (λ _ _ _ _ p0, Ok (p0, [[Fin 1; Fin 0; Fin 0];
                              [Fin 0; Fin 1; Fin 0];
                              [Fin 0; Fin 0; Fin 1]]))
      (FluxCalibration.mkStarData [Fin 5000; Fin 5001; Fin 5002]
         [[Fin 1]; [NaN]; [Fin 3]] [Fin 0] [Fin 0])
      None None (λ r2 _, r2) None
    = Ok res
    ∧ length (FluxCalibration.running_wavelength res) = 2%nat
    ∧ length (FluxCalibration.profile_popt res)
      = length (FluxCalibration.running_wavelength res)
    ∧ length (FluxCalibration.profile_var res)
      = length (FluxCalibration.running_wavelength res)
    ∧ length (FluxCalibration.residuals res)
      = length (FluxCalibration.running_wavelength res)
    ∧ (length (FluxCalibration.running_wavelength res)
       ≤ length [Fin 5000; Fin 5001; Fin 5002])%nat.
Proof.
  eexists. split; [reflexivity|]. split; [reflexivity|].
  apply (extract_stellar_flux_parallel_results
           (λ _ _ _ _ p0, Ok (p0, [[Fin 1; Fin 0; Fin 0];
                                   [Fin 0; Fin 1; Fin 0];
                                   [Fin 0; Fin 0; Fin 1]]))
           (FluxCalibration.mkStarData [Fin 5000; Fin 5001; Fin 5002]
              [[Fin 1]; [NaN]; [Fin 3]] [Fin 0] [Fin 0])
           None None (λ r2 _, r2) None).
  reflexivity.
Defined.

(** *** Applying the calibration *)

(** A successful [FluxCalibration.apply] marks the container: applying a
    response again, whatever it is, raises [CalibrationError] and leaves the
    container as the first call left it. *)
Theorem FluxCalibration_apply_twice (response response' : ndarray)
    (dc dc' : FluxCalibration.DataContainer) (units units' : string) :
  FluxCalibration.apply response dc units = (Ok (), dc') →
  FluxCalibration.apply response' dc' units' = (Raise CalibrationError, dc').
Proof.
  unfold FluxCalibration.apply at 1.
  destruct (FluxCalibration.is_corrected dc _); [discriminate|].
  destruct (FluxCalibration.idiv_axis0 _ response); [|discriminate].
  cbn [FluxCalibration.variance_corrected].
  destruct (FluxCalibration.idiv_axis0 _ (map fsqr response));
    [|discriminate].
  intros [= <-]. unfold FluxCalibration.apply.
  now rewrite is_corrected_log_correction.
Qed.

Lemma FluxCalibration_apply_twice_witness :
  FluxCalibration.apply [Fin 4]
    (FluxCalibration.log_correction
       (FluxCalibration.mkDataContainer "star" [Fin 5000]
          [map (λ v, fdiv v (Fin 2)) [Fin 1]]
          [map (λ v, fdiv v (fsqr (Fin 2))) [Fin 1]] ∅)
       "applied" "counts")
    "counts"
  = (Raise CalibrationError,
     FluxCalibration.log_correction
       (FluxCalibration.mkDataContainer "star" [Fin 5000]
          [map (λ v, fdiv v (Fin 2)) [Fin 1]]
          [map (λ v, fdiv v (fsqr (Fin 2))) [Fin 1]] ∅)
       "applied" "counts").
Proof.
  apply (FluxCalibration_apply_twice [Fin 2] [Fin 4]
           (FluxCalibration.mkDataContainer "star" [Fin 5000]
              [[Fin 1]] [[Fin 1]] ∅) _ "counts" "counts").
  reflexivity.
Defined.

(** ** NaN in [flux_conserving_interpolation] *)







(** ** [pykoala/corrections/wavelength.py] *)

(** *** [WavelengthOffset] and its FITS files *)


(** [from_fits] raises [NameError] exactly when there is no file at the
    path, and [IndexError] for a FITS file with fewer than three HDUs.  An
    offset that was loaded remembers its file: saved with [tofits()] and no
    output path it goes back to that file, no other file is touched, and
    loading it again returns the same offset. *)
Theorem WavelengthOffset_from_fits_outcome (p : string)
    (fs : gmap string PyKoala.file) :
  (PyKoala.WavelengthOffset.from_fits p fs = Raise NameError
   ↔ fs !! p = None)
  ∧ (∀ hdul, fs !! p = Some (PyKoala.FitsFile hdul) →
             (length hdul < 3)%nat →
             PyKoala.WavelengthOffset.from_fits p fs = Raise IndexError)
  ∧ (∀ loaded, PyKoala.WavelengthOffset.from_fits p fs = Ok loaded →
       PyKoala.path loaded = Some p
       ∧ ∃ fs', PyKoala.WavelengthOffset.tofits loaded None fs = (Ok (), fs')
                ∧ (∀ q, q ≠ p → fs' !! q = fs !! q)
                ∧ PyKoala.WavelengthOffset.from_fits p fs' = Ok loaded).
Proof.
  unfold PyKoala.WavelengthOffset.from_fits. split; [|split].
  - destruct (fs !! p) as [[hdul|]|]; [|split; discriminate|split; done].
    split; [|discriminate].
    destruct hdul as [|h0 [|h1 [|h2 hdul]]]; cbn; discriminate.
  - intros hdul -> Hl.
    destruct hdul as [|h0 [|h1 [|h2 hdul]]]; simpl in Hl; try lia;
      reflexivity.
  - intros loaded. destruct (fs !! p) as [[hdul|]|] eqn:E; try discriminate.
    destruct hdul as [|h0 [|h1 [|h2 hdul]]]; cbn; try discriminate.
    intros [= <-]. split; [reflexivity|].
    unfold PyKoala.WavelengthOffset.tofits. cbn.
    eexists. split; [reflexivity|]. split.
    + intros q Hq. now rewrite lookup_insert_ne.
    + rewrite lookup_insert_eq. reflexivity.
Qed.

Lemma WavelengthOffset_from_fits_outcome_example :
  PyKoala.WavelengthOffset.from_fits "offset.fits"
    {["offset.fits" := PyKoala.FitsFile
                         [PyKoala.PrimaryHDU;
                          PyKoala.mkHDU "SHIFT" (Some [Fin 1]);
                          PyKoala.mkHDU "SIGMA" None;
                          PyKoala.mkHDU "MORE" None]]}
  = Ok (PyKoala.mkWavelengthOffset (Some "offset.fits") (Some [Fin 1]) None).
Proof. reflexivity. Qed.

(** *** [WavelengthCorrection.apply] *)








(** [WavelengthCorrection.apply] corrects the intensity only: the variance
    of the returned container is the variance of the input, untouched, and
    the history gains one entry.  With at least one fibre, an object
    without offset raises [AttributeError] and an offset without data
    [TypeError]; with no fibre the offset is never read. *)
Theorem WavelengthCorrection_apply_outcome
    (self : PyKoala.WavelengthCorrection) (rss : PyKoala.SpectraContainer) :
  (∀ out, PyKoala.WavelengthCorrection.apply self rss = Ok out →
          PyKoala.rss_variance out = PyKoala.rss_variance rss
          ∧ PyKoala.info_airmass out = PyKoala.info_airmass rss
          ∧ PyKoala.history out
            = PyKoala.history rss
              ++ [PyKoala.mkHistoryEntry "WavelengthCorrection" "applied" ""])
  ∧ (PyKoala.rss_intensity rss ≠ [] → PyKoala.offset self = None →
     PyKoala.WavelengthCorrection.apply self rss = Raise AttributeError)
  ∧ (PyKoala.rss_intensity rss ≠ [] →
     ∀ o, PyKoala.offset self = Some o → PyKoala.offset_data o = None →
          PyKoala.WavelengthCorrection.apply self rss = Raise TypeError)
  ∧ (PyKoala.rss_intensity rss = [] →
     PyKoala.WavelengthCorrection.apply self rss
     = Ok (PyKoala.record_correction "WavelengthCorrection" rss "applied" "")).
Proof.
  unfold PyKoala.WavelengthCorrection.apply. cbv zeta.
  split; [|split; [|split]].
  - intros out.
    destruct (for_each _ _ _) as [intensity|e]; cbn; [|discriminate].
    intros [= <-]. cbn. auto.
  - intros Hne Ho. destruct (PyKoala.rss_intensity rss) as [|row rows];
      [done|].
    cbn [length seq for_each]. rewrite Ho. reflexivity.
  - intros Hne o Ho Hd. destruct (PyKoala.rss_intensity rss) as [|row rows];
      [done|].
    cbn [length seq for_each]. rewrite Ho. cbn [mbind result_bind].
    rewrite Hd. reflexivity.
  - intros Hnil. rewrite Hnil. cbn.
    unfold PyKoala.record_correction. cbn. now rewrite Hnil.
Qed.

(** *** [AtmosphericExtCorrection] *)








Lemma mapM_broadcast2_error (f : float → float → float) (b : ndarray)
    (a : list ndarray) (e : exception) :
  mapM (M := result) (λ row, broadcast2 f row b) a = Raise e →
  e = ValueError.
Proof.
  induction a as [|row a IH]; [discriminate|]. cbn.
  destruct (broadcast2 f row b) as [r|e1] eqn:E1; cbn.
  - destruct (mapM _ a) as [rs|e2]; cbn; [discriminate|].
    intros [= <-]. now apply IH.
  - intros [= <-]. eapply broadcast2_error, E1.
Qed.

(** [AtmosphericExtCorrection.apply] raises [AttributeError] exactly when
    the object holds no extinction curve.  With a curve, a missing airmass
    (neither given nor stored in the container) raises [TypeError], and an
    empty table, or a table and a curve of different lengths, raises
    [ValueError]. *)
Theorem AtmosphericExtCorrection_apply_errors
    (self : PyKoala.AtmosphericExtCorrection)
    (sc : PyKoala.SpectraContainer) (airmass : option float) :
  (PyKoala.AtmosphericExtCorrection.apply self sc airmass
   = Raise AttributeError
   ↔ PyKoala.extinction_correction self = None)
  ∧ (∀ curve, PyKoala.extinction_correction self = Some curve →
       (airmass = None → PyKoala.info_airmass sc = None →
        PyKoala.AtmosphericExtCorrection.apply self sc airmass
        = Raise TypeError)
       ∧ (airmass ≠ None ∨ PyKoala.info_airmass sc ≠ None →
          PyKoala.extinction_correction_wave self = []
          ∨ length (PyKoala.extinction_correction_wave self) ≠ length curve →
          PyKoala.AtmosphericExtCorrection.apply self sc airmass
          = Raise ValueError)).
Proof.
  unfold PyKoala.AtmosphericExtCorrection.apply. cbv zeta. split.
  - destruct (PyKoala.extinction_correction self) as [curve|];
      [|split; reflexivity].
    split; [|discriminate].
    destruct (match airmass with None => _ | Some a => Some a end) as [a|];
      cbn; [|discriminate].
    unfold PyKoala.AtmosphericExtCorrection.extinction.
    destruct (interp _ _ curve) as [ec|e] eqn:Eec; cbn.
    + destruct (mapM _ (PyKoala.rss_intensity sc)) as [i|e] eqn:EI; cbn.
      * destruct (mapM _ (PyKoala.rss_variance sc)) as [v|e] eqn:EV; cbn;
          [discriminate|].
        apply mapM_broadcast2_error in EV as ->. discriminate.
      * apply mapM_broadcast2_error in EI as ->. discriminate.
    + unfold interp in Eec.
      repeat (destruct (decide _); try discriminate);
        try (destruct (finite _); discriminate);
        injection Eec as <-; discriminate.
  - intros curve ->. split.
    + intros -> ->. reflexivity.
    + intros Ha Ht.
      destruct (match airmass with None => _ | Some a => Some a end)
        as [a|] eqn:Ea.
      2:{ destruct airmass; [discriminate|]. destruct Ha as [Ha|Ha]; congruence. }
      cbn. unfold PyKoala.AtmosphericExtCorrection.extinction, interp.
      destruct (decide (length _ = 0%nat)) as [E|E]; [reflexivity|].
      destruct Ht as [Ht|Ht]; [rewrite Ht in E; done|].
      rewrite decide_False by exact Ht. reflexivity.
Qed.

(** *** [SolarCrossCorrOffset.compute_shift_from_twilight] *)







Section twilight.
Import PyKoala.


End twilight.


Lemma mapM_getitem_elem_of {A} (l : list A) (ks : list nat) (r : list A) :
  mapM (M := result) (getitem l) ks = Ok r → Forall (λ y, y ∈ l) r.
Proof.
  intros H. apply mapM_Ok_Forall2 in H.
  induction H as [|k y ks r Hk _ IH]; constructor; [|exact IH].
  unfold getitem in Hk. destruct (l !! k) as [x|] eqn:E; [|discriminate].
  injection Hk as <-. eapply list_elem_of_lookup_2, E.
Qed.

(** Whenever [compute_shift_from_twilight] returns, the best-fit values of
    the returned dictionary are entries of the two input grids, one pair
    per fibre, the mean values come one per fibre too, and the stored
    offset is minus the returned shift: the mean one with [use_mean], the
    best-fit one without.  The solar spectrum and the path of the offset
    are left as they were. *)
Theorem compute_shift_from_twilight_results
    (self self' : PyKoala.SolarCrossCorrOffset)
    (pix_shift_array pix_std_array : ndarray) (rss_intensity : list ndarray)
    (models_grid weights_grid : list (list ndarray))
    (fibre_weights nrss : list ndarray) (use_mean : bool)
    (res : PyKoala.shift_results) :
  PyKoala.SolarCrossCorrOffset.compute_shift_from_twilight self
    pix_shift_array pix_std_array rss_intensity models_grid weights_grid
    fibre_weights nrss use_mean = Ok (self', res) →
  Forall (λ s, s ∈ pix_shift_array) (PyKoala.best_fit res).1
  ∧ Forall (λ s, s ∈ pix_std_array) (PyKoala.best_fit res).2
  ∧ length (PyKoala.best_fit res).1 = length rss_intensity
  ∧ length (PyKoala.best_fit res).2 = length rss_intensity
  ∧ length (PyKoala.mean_fit res).1 = length rss_intensity
  ∧ length (PyKoala.mean_fit res).2 = length rss_intensity
  ∧ PyKoala.offset_data (PyKoala.solar_offset self')
    = Some (map fneg (if use_mean then (PyKoala.mean_fit res).1
                      else (PyKoala.best_fit res).1))
  ∧ PyKoala.sun_wavelength self' = PyKoala.sun_wavelength self
  ∧ PyKoala.sun_intensity self' = PyKoala.sun_intensity self
  ∧ PyKoala.path (PyKoala.solar_offset self')
    = PyKoala.path (PyKoala.solar_offset self).
Proof.
  unfold PyKoala.SolarCrossCorrOffset.compute_shift_from_twilight. cbv zeta.
  destruct (PyKoala.SolarCrossCorrOffset.all_chi2 _ _ _ _ _ _ _) as [chi|];
    cbn; [|discriminate].
  destruct (PyKoala.SolarCrossCorrOffset.likelihood _ chi) as [lik|];
    cbn; [|discriminate].
  destruct (mapM _ (seq 0 (length rss_intensity))) as [idx|] eqn:Eidx;
    cbn; [|discriminate].
  destruct (mapM (getitem pix_std_array) _) as [sigma|] eqn:Es; cbn;
    [|discriminate].
  destruct (mapM (getitem pix_shift_array) _) as [shift|] eqn:Esh; cbn;
    [|discriminate].
  intros [= <- <-]. cbn.
  pose proof (mapM_getitem_elem_of _ _ _ Es) as Hsig.
  pose proof (mapM_getitem_elem_of _ _ _ Esh) as Hshift.
  apply mapM_Ok_length in Eidx, Esh, Es. rewrite length_seq in Eidx.
  rewrite length_map, Eidx in Esh, Es.
  rewrite !length_map, !length_seq.
  repeat split; try assumption; try reflexivity.
  destruct use_mean; reflexivity.
Qed.

Lemma compute_shift_from_twilight_results_witness :
  ∃ (self' : PyKoala.SolarCrossCorrOffset) (res : PyKoala.shift_results),
    PyKoala.SolarCrossCorrOffset.compute_shift_from_twilight
      (PyKoala.mkSolarCrossCorrOffset [] []
         (PyKoala.mkWavelengthOffset None None None))
      (map Fin [0; 1]) [Fin 1] [[Fin 1]]
      [[[Fin 1]]; [[Fin 2]]] [[[Fin 1]]; [[Fin 1]]] [[Fin 1]] [[Fin 1]] false
    = Ok (self', res)
    ∧ Forall (λ s, s ∈ map Fin [0; 1]) (PyKoala.best_fit res).1
    ∧ PyKoala.offset_data (PyKoala.solar_offset self')
      = Some (map fneg (PyKoala.best_fit res).1).
Proof.
  destruct (compute_shift_from_twilight_example false) as (self' & res & Hrun).
  exists self', res. split; [exact Hrun|].
  destruct (compute_shift_from_twilight_results _ _ _ _ _ _ _ _ _ _ _ Hrun)
    as (H1 & _ & _ & _ & _ & _ & H7 & _).
  split; [exact H1|exact H7].
Defined.

Lemma concat_concat_empty {A} (n m F : nat) (chi : list (list (list A))) :
  length chi = n →
  Forall (λ block, length block = m
                   ∧ Forall (λ cell, length cell = F) block) chi →
  n = 0%nat ∨ m = 0%nat ∨ F = 0%nat →
  concat (concat chi) = [].
Proof.
  intros Hn Hshape H0.
  destruct H0 as [->|H0]; [apply nil_length_inv in Hn; now subst|].
  clear Hn. induction Hshape as [|block a [Hm Hb] _ IH]; [reflexivity|].
  cbn. rewrite concat_app, IH, app_nil_r.
  destruct H0 as [->| ->].
  - apply nil_length_inv in Hm. now subst.
  - clear -Hb. induction Hb as [|cell b Hc _ IH]; [reflexivity|].
    cbn. rewrite IH. apply nil_length_inv in Hc. now rewrite Hc.
Qed.

(** An empty grid of shifts or of line widths, or a container without
    fibres, makes [compute_shift_from_twilight] raise [ValueError] (the
    minimum of an empty [all_chi2]); the offset is not assigned. *)
Theorem compute_shift_from_twilight_empty_grid
    (self : PyKoala.SolarCrossCorrOffset)
    (pix_shift_array pix_std_array : ndarray) (rss_intensity : list ndarray)
    (models_grid weights_grid : list (list ndarray))
    (fibre_weights nrss : list ndarray) (use_mean : bool)
    (chi : list (list ndarray)) :
  PyKoala.SolarCrossCorrOffset.all_chi2
    (length pix_shift_array) (length pix_std_array) (length rss_intensity)
    models_grid weights_grid nrss fibre_weights = Ok chi →
  pix_shift_array = [] ∨ pix_std_array = [] ∨ rss_intensity = [] →
  PyKoala.SolarCrossCorrOffset.compute_shift_from_twilight self
    pix_shift_array pix_std_array rss_intensity models_grid weights_grid
    fibre_weights nrss use_mean = Raise ValueError.
Proof.
  intros Hchi Hempty.
  unfold PyKoala.SolarCrossCorrOffset.compute_shift_from_twilight. cbv zeta.
  rewrite Hchi. cbn [mbind result_bind].
  destruct (all_chi2_shape _ _ _ _ _ _ _ _ Hchi) as [Hn Hshape].
  unfold PyKoala.SolarCrossCorrOffset.likelihood.
  rewrite (concat_concat_empty _ _ _ chi Hn Hshape); [reflexivity|].
  destruct Hempty as [->|[->| ->]]; auto.
Qed.

Lemma compute_shift_from_twilight_empty_grid_witness :
  PyKoala.SolarCrossCorrOffset.compute_shift_from_twilight
    (PyKoala.mkSolarCrossCorrOffset [] []
       (PyKoala.mkWavelengthOffset None None None))
    [] [Fin 1] [[Fin 1]] [] [] [[Fin 1]] [[Fin 1]] true
  = Raise ValueError.
Proof.
  apply (compute_shift_from_twilight_empty_grid _ [] [Fin 1] [[Fin 1]]
           [] [] [[Fin 1]] [[Fin 1]] true []).
  - reflexivity.
  - now left.
Defined.

(** ** [koala/ancillary.py]: running mean, nearest sample, models *)

(** *** [running_mean] *)






(** A window longer than the array gives an empty result; a window of
    zero raises [ValueError] on every array that is not empty. *)
Theorem running_mean_edge_windows (x : ndarray) (n_window : Z) :
  ((Z.of_nat (length x) < n_window)%Z → running_mean x n_window = Ok [])
  ∧ (n_window = 0%Z → x ≠ [] → running_mean x n_window = Raise ValueError)
  ∧ (n_window = 0%Z → x = [] → running_mean x n_window = Ok []).
Proof.
  unfold running_mean, slice_from, slice_to. split; [|split].
  - intros Hn. rewrite decide_True by lia. rewrite decide_False by lia.
    rewrite Z.opp_involutive.
    pose proof (length_cumsum (Fin 0 :: x)) as Hc. cbn [length] in Hc.
    rewrite drop_ge by lia.
    replace (length (cumsum (Fin 0 :: x)) - Z.to_nat n_window)%nat
      with 0%nat by lia.
    reflexivity.
  - intros -> Hx. rewrite !decide_True by lia. simpl Z.to_nat.
    rewrite drop_0, take_0.
    pose proof (length_cumsum (Fin 0 :: x)) as Hc. cbn [length] in Hc.
    rewrite broadcast2_mismatch; [reflexivity|simpl; lia| |simpl; lia].
    rewrite Hc. destruct x; [done|simpl; lia].
  - intros -> ->. reflexivity.
Qed.

(** *** [nearest] *)




(** *** [cut_wave] *)







(** *** The Moffat profile *)






(** ** [koala/ancillary.py]: the functions that read an RSS *)

(** *** [detect_edge] *)











(** *** [interpolate_nan] *)

(** The samples that [interpolate_nan] hands to [interp1d]. *)
Lemma boolean_index_finite_from (s : ndarray) (k : nat) :
  FluxCalibration.boolean_index
    (map (λ j, Fin (INR j)) (seq k (length s))) (map isfinite s)
  = Ok (map (λ p, Fin (INR p.1)) (finite_from k s))
  ∧ FluxCalibration.boolean_index s (map isfinite s)
    = Ok (map (λ p, Fin p.2) (finite_from k s)).
Proof.
  unfold FluxCalibration.boolean_index.
  rewrite !decide_True by (now rewrite ?length_map, ?length_seq).
  split; f_equal.
  - revert k. induction s as [|[v|] s IH]; intros k; [reflexivity| |].
    + cbn [length seq map zip_with finite_from isfinite].
      rewrite filter_cons_True by reflexivity.
      rewrite fmap_cons. cbn [fst]. f_equal. apply IH.
    + cbn [length seq map zip_with finite_from isfinite].
      rewrite filter_cons_False by (simpl; discriminate). apply IH.
  - revert k. induction s as [|[v|] s IH]; intros k; [reflexivity| |].
    + cbn [map zip_with finite_from isfinite].
      rewrite filter_cons_True by reflexivity.
      rewrite fmap_cons. cbn [fst snd]. f_equal. apply IH.
    + cbn [map zip_with finite_from isfinite].
      rewrite filter_cons_False by (simpl; discriminate). apply IH.
Qed.

Lemma finite_from_elem_of (s : ndarray) (k p : nat) (v : R) :
  (p, v) ∈ finite_from k s → (k ≤ p)%nat ∧ s !! (p - k)%nat = Some (Fin v).
Proof.
  revert k. induction s as [|[u|] s IH]; intros k Hin; cbn in Hin.
  - now apply elem_of_nil in Hin.
  - apply elem_of_cons in Hin as [[= -> ->]|Hin].
    + split; [lia|]. now rewrite Nat.sub_diag.
    + destruct (IH (S k) Hin) as [Hle Hl]. split; [lia|].
      replace (p - k)%nat with (S (p - S k)) by lia. exact Hl.
  - destruct (IH (S k) Hin) as [Hle Hl]. split; [lia|].
    replace (p - k)%nat with (S (p - S k)) by lia. exact Hl.
Qed.

Lemma finite_from_nil (s : ndarray) (k : nat) :
  finite_from k s = [] ↔ Forall (λ v, v = NaN) s.
Proof.
  revert k. induction s as [|[u|] s IH]; intros k; cbn.
  - split; [constructor|reflexivity].
  - split; [discriminate|]. intros H. inversion H. discriminate.
  - rewrite IH. split; [now constructor|]. intros H. now inversion H.
Qed.

Lemma finite_from_increasing (s : ndarray) (k : nat) :
  increasing (map (λ p : nat * R, INR p.1) (finite_from k s)).
Proof.
  revert k. induction s as [|[u|] s IH]; intros k; cbn.
  - constructor.
  - constructor; [apply IH|].
    apply Forall_forall. intros x Hx.
    apply list_elem_of_fmap in Hx as ([p v] & -> & Hin).
    apply finite_from_elem_of in Hin as [Hle _]. cbn. apply lt_INR. lia.
  - apply IH.
Qed.

(** What [interpolate_nan] returns, for the interpolator that [interp1d]
    builds on the finite samples. *)
Lemma interpolate_nan_interp1d (spectrum : ndarray) :
  ¬ Forall (λ v, v = NaN) spectrum →
  ∃ f : float → float,
    interp1d (map (λ p, Fin (INR p.1)) (finite_from 0 spectrum))
      (map (λ p, Fin p.2) (finite_from 0 spectrum)) NaN = Ok f
    ∧ AncillaryRSS.interpolate_nan spectrum
      = Ok (zip_with (λ s v, if isfinite s then s else v) spectrum
              (map f (arange (length spectrum))))
    ∧ ∀ v, f (Fin v)
           = if decide (v < hd 0 (map (λ p : nat * R, INR p.1)
                                    (finite_from 0 spectrum)))
             then NaN
             else if decide (List.last (map (λ p : nat * R, INR p.1)
                                          (finite_from 0 spectrum)) 0 < v)
                  then NaN
                  else interp1 (Fin v)
                         (map (λ p : nat * R, INR p.1)
                            (finite_from 0 spectrum))
                         (map (λ p, Fin p.2) (finite_from 0 spectrum)).
Proof.
  intros Hne.
  assert (finite_from 0 spectrum ≠ []) as Hfin
    by (intros E; apply Hne; now apply (finite_from_nil spectrum 0)).
  destruct (interp1d_increasing
              (map (λ p : nat * R, INR p.1) (finite_from 0 spectrum))
              (map (λ p, Fin p.2) (finite_from 0 spectrum)) NaN)
    as (f & Hf & _ & Hfv).
  - apply finite_from_increasing.
  - destruct (finite_from 0 spectrum); [done|discriminate].
  - now rewrite !length_map.
  - rewrite map_map in Hf. exists f. split; [exact Hf|]. split; [|exact Hfv].
    unfold AncillaryRSS.interpolate_nan. cbv zeta.
    destruct (boolean_index_finite_from spectrum 0) as [H1 H2].
    change (map (λ j, Fin (INR j)) (seq 0 (length spectrum)))
      with (arange (length spectrum)) in H1.
    rewrite H1, H2. cbn [mbind result_bind].
    rewrite Hf. reflexivity.
Qed.

(** [interpolate_nan] raises [ValueError] on a spectrum without any finite
    value (an empty one included).  Otherwise it returns a spectrum of the
    same length that keeps every finite value; and the NaN before the first
    finite value, or after the last one, are not replaced: they stay
    NaN. *)
Theorem interpolate_nan_outcome (spectrum : ndarray) :
  (Forall (λ v, v = NaN) spectrum →
   AncillaryRSS.interpolate_nan spectrum = Raise ValueError)
  ∧ (¬ Forall (λ v, v = NaN) spectrum →
     ∃ out : ndarray,
       AncillaryRSS.interpolate_nan spectrum = Ok out
       ∧ length out = length spectrum
       ∧ (∀ k v, spectrum !! k = Some (Fin v) → out !! k = Some (Fin v))
       ∧ (∀ k, (k < length spectrum)%nat →
               (∀ j, (j ≤ k)%nat → spectrum !! j = Some NaN) →
               out !! k = Some NaN)
       ∧ (∀ k, (k < length spectrum)%nat →
               (∀ j, (k ≤ j)%nat → (j < length spectrum)%nat →
                     spectrum !! j = Some NaN) →
               out !! k = Some NaN)).
Proof.
  split.
  - intros Hall. unfold AncillaryRSS.interpolate_nan. cbv zeta.
    destruct (boolean_index_finite_from spectrum 0) as [H1 H2].
    change (map (λ j, Fin (INR j)) (seq 0 (length spectrum)))
      with (arange (length spectrum)) in H1.
    rewrite H1, H2.
    rewrite (proj2 (finite_from_nil spectrum 0) Hall). reflexivity.
  - intros Hne.
    destruct (interpolate_nan_interp1d spectrum Hne) as (f & _ & -> & Hf).
    eexists. split; [reflexivity|].
    assert (length (map f (arange (length spectrum))) = length spectrum)
      as Hlen by (unfold arange; now rewrite !length_map, length_seq).
    split; [rewrite length_zip_with; lia|].
    assert (∀ k, (k < length spectrum)%nat →
              map f (arange (length spectrum)) !! k = Some (f (Fin (INR k))))
      as Hk.
    { intros k Hk. unfold arange. rewrite map_map.
      change (map ?g ?l) with (g <$> l).
      rewrite list_lookup_fmap, lookup_seq_lt by exact Hk. reflexivity. }
    set (xs := map (λ p : nat * R, INR p.1) (finite_from 0 spectrum)) in *.
    assert (∀ x, x ∈ xs → ∃ p v, x = INR p ∧ spectrum !! p = Some (Fin v))
      as Hxs.
    { intros x Hx. apply list_elem_of_fmap in Hx as ([p v] & -> & Hin).
      apply finite_from_elem_of in Hin as [_ Hp].
      rewrite Nat.sub_0_r in Hp. eauto. }
    assert (xs ≠ []) as Hxne.
    { unfold xs. intros E. apply map_eq_nil in E.
      apply Hne. now apply (finite_from_nil spectrum 0). }
    split; [|split].
    + intros k v Hs. rewrite lookup_zip_with, Hs. cbn.
      rewrite Hk by (eapply lookup_lt_Some, Hs). reflexivity.
    + intros k Hlt Hnan. rewrite lookup_zip_with, (Hnan k (le_n k)). cbn.
      rewrite (Hk k Hlt). cbn. f_equal. rewrite Hf.
      destruct xs as [|x0 xs'] eqn:Exs; [done|]. cbn [hd].
      destruct (Hxs x0 ltac:(left)) as (p & v & -> & Hp).
      assert (k < p)%nat as Hkp.
      { destruct (le_lt_dec p k) as [Hle|Hgt]; [|exact Hgt].
        rewrite (Hnan p Hle) in Hp. discriminate. }
      rewrite decide_True by (now apply lt_INR). reflexivity.
    + intros k Hlt Hnan. rewrite lookup_zip_with.
      rewrite (Hnan k (le_n k) Hlt). cbn.
      rewrite (Hk k Hlt). cbn. f_equal. rewrite Hf.
      destruct (decide (INR k < hd 0 xs)); [reflexivity|].
      assert (List.last xs 0 ∈ xs) as Hlast.
      { destruct xs as [|x0 xs']; [done|].
        rewrite last_cons_self.
        apply (last_Some_elem_of (x0 :: xs')). apply last_cons_Some. }
      destruct (Hxs _ Hlast) as (p & v & Hp & Hsp).
      assert (p < k)%nat as Hpk.
      { destruct (le_lt_dec k p) as [Hle|Hgt]; [|exact Hgt].
        rewrite (Hnan p Hle) in Hsp; [discriminate|].
        eapply lookup_lt_Some, Hsp. }
      rewrite Hp. rewrite decide_True by (now apply lt_INR). reflexivity.
Qed.






(** ** [pykoala/corrections/wavelength.py]: the grid of models *)





Section grid_of_models.
Import PyKoala.
Variable gaussian_filter : ndarray → float → option float → ndarray.
Hypothesis gaussian_filter_length :
  ∀ a sigma truncate, length (gaussian_filter a sigma truncate) = length a.




End grid_of_models.


